(** * ADVBOX DJEN proxy and notice storage: a shallow embedding

    Two artefacts of the repository are modelled here.

    - [server.js]: the Express application whose [GET /djen] route relays a
      query to the court-gazette API through [axios.get].  The route handler
      is embedded in a small state-and-exception monad over a trace of
      observable events (console output, upstream calls, responses sent),
      module [Proxy].
    - [create_tables.sql] and the DDL quoted in [SETUP_SUPABASE.md]: the column
      constraints of the notice tables, embedded as schema values together
      with the row-insertion discipline PostgreSQL applies to them,
      module [Store].

    Around them: the rest of the Express application (access log, info and
    health routes, catch-all), module [App]; the run-log tables and the
    seed row of [create_tables.sql], module [Logs]; and the two [re.sub]
    calls of the text processor quoted in [SETUP_SUPABASE.md], module
    [Cleanup]. *)

From Stdlib Require Import ZArith List String Ascii Bool Lia.
Import ListNotations.

Open Scope string_scope.
Open Scope Z_scope.

Set Warnings "-register-all".

(** ** JavaScript values *)

Module JS.

(** The values the handler manipulates: what [JSON.parse] and the query
    parser produce, plus [undefined].  Objects keep their own properties in
    insertion order.  Numbers are the integral ones (status codes, counts,
    lengths). *)
Inductive value : Type :=
| VUndefined
| VNull
| VBool (b : bool)
| VNum (n : Z)
| VStr (s : string)
| VArr (xs : list value)
| VObj (props : list (string * value)).

(** [ToBoolean]. *)
Definition truthy (v : value) : bool :=
  match v with
  | VUndefined | VNull => false
  | VBool b => b
  | VNum n => negb (n =? 0)
  | VStr s => negb (s =? "")%string
  | VArr _ | VObj _ => true
  end.

(** Own-property lookup in an object's property list. *)
Fixpoint lookup (k : string) (props : list (string * value)) : option value :=
  match props with
  | [] => None
  | (k', v) :: rest => if (k =? k')%string then Some v else lookup k rest
  end.

(** [o[k]] on an object: a missing property reads as [undefined]. *)
Definition get (props : list (string * value)) (k : string) : value :=
  match lookup k props with
  | Some v => v
  | None => VUndefined
  end.

(** A destructuring binding [{ k = d } = o]: the default applies exactly when
    the property reads as [undefined]. *)
Definition destructure (props : list (string * value)) (k : string)
    (d : value) : value :=
  match get props k with
  | VUndefined => d
  | v => v
  end.

(** [a || b]. *)
Definition or_else (a b : value) : value :=
  if truthy a then a else b.

(** What a thrown value looks like to the handler's [catch]: it reads
    [error.message] and [error.response].  An axios rejection carries the
    upstream response when one was received; a [TypeError] carries none. *)
Record http_response : Type := {
  status : Z;
  statusText : string;
  headers : value;
  data : value
}.

Record error : Type := {
  message : string;
  response : option http_response
}.

Definition TypeError (msg : string) : error :=
  {| message := msg; response := None |}.

(** [v.k] on a value that is neither [null] nor [undefined], for the
    property names the handler reads ([count], [items], [length]); none of
    them is an index or a prototype method.  The length of a string is
    counted in the characters of [string], which is the JavaScript length
    for ASCII text. *)
Definition prop (v : value) (k : string) : value :=
  match v with
  | VObj props => get props k
  | VArr xs =>
      if (k =? "length")%string then VNum (Z.of_nat (List.length xs))
      else VUndefined
  | VStr s =>
      if (k =? "length")%string then VNum (Z.of_nat (String.length s))
      else VUndefined
  | _ => VUndefined
  end.

(** [v.k] in general: reading a property of [null] or [undefined] throws. *)
Definition member (v : value) (k : string) : error + value :=
  match v with
  | VUndefined =>
      inl (TypeError ("Cannot read properties of undefined (reading '"
                        ++ k ++ "')"))
  | VNull =>
      inl (TypeError ("Cannot read properties of null (reading '"
                        ++ k ++ "')"))
  | _ => inr (prop v k)
  end.

End JS.

(** ** The proxy *)

Module Proxy.
Import JS.

(** The second argument of [axios.get]. *)
Record axios_config : Type := {
  params : value;
  timeout : Z;
  req_headers : list (string * string)
}.

(** How an [axios.get] promise settles. *)
Inductive axios_result : Type :=
| Fulfilled (r : http_response)
| Rejected (e : error).

(** Everything outside the process: the clock behind
    [new Date().toISOString()] and the upstream service behind [axios.get]. *)
Record env : Type := {
  now : string;
  upstream : string -> axios_config -> axios_result
}.

(** Observable events, in the order they happen. *)
Inductive event : Type :=
| ConsoleLog (args : list value)
| ConsoleError (args : list value)
| AxiosGet (url : string) (config : axios_config)
| Send (code : Z) (body : value).

(** The mutable state a handler run touches: Express' [res.statusCode] and
    the trace. *)
Record world : Type := {
  statusCode : Z;
  trace : list event
}.

Definition initial_world : world := {| statusCode := 200; trace := [] |}.

Definition emit (ev : event) (w : world) : world :=
  {| statusCode := statusCode w; trace := (trace w ++ [ev])%list |}.

(** Computations that may throw. *)
Inductive outcome (A : Type) : Type :=
| Normal (a : A)
| Thrown (e : error).
Arguments Normal {A} a.
Arguments Thrown {A} e.

Definition M (A : Type) : Type := world -> outcome A * world.

Definition ret {A} (a : A) : M A := fun w => (Normal a, w).

Definition bind {A B} (c : M A) (k : A -> M B) : M B :=
  fun w =>
    match c w with
    | (Normal a, w') => k a w'
    | (Thrown e, w') => (Thrown e, w')
    end.

Definition throw {A} (e : error) : M A := fun w => (Thrown e, w).

Definition try_catch {A} (body : M A) (handler : error -> M A) : M A :=
  fun w =>
    match body w with
    | (Normal a, w') => (Normal a, w')
    | (Thrown e, w') => handler e w'
    end.

Declare Scope js_scope.
Delimit Scope js_scope with js.
Notation "x <- c ;; k" := (bind c (fun x => k))
  (at level 61, c at next level, right associativity) : js_scope.
Notation "c ;; k" := (bind c (fun _ => k))
  (at level 61, right associativity) : js_scope.
Open Scope js_scope.

Definition lift {A} (r : error + A) : M A :=
  match r with
  | inl e => throw e
  | inr a => ret a
  end.

Definition console_log (args : list value) : M unit :=
  fun w => (Normal tt, emit (ConsoleLog args) w).

Definition console_error (args : list value) : M unit :=
  fun w => (Normal tt, emit (ConsoleError args) w).

(** [res.status(code)]. *)
Definition res_status (code : Z) : M unit :=
  fun w => (Normal tt, {| statusCode := code; trace := trace w |}).

(** [res.json(body)]: the response goes out with the current status code. *)
Definition res_json (body : value) : M unit :=
  fun w => (Normal tt, emit (Send (statusCode w) body) w).

(** [await axios.get(url, config)]. *)
Definition axios_get (E : env) (url : string) (config : axios_config)
    : M http_response :=
  fun w =>
    let w' := emit (AxiosGet url config) w in
    match upstream E url config with
    | Fulfilled r => (Normal r, w')
    | Rejected e => (Thrown e, w')
    end.

Definition new_Date_toISOString (E : env) : M value :=
  ret (VStr (now E)).

(** An Express request, as far as the handler reads it. *)
Record request : Type := {
  query : list (string * value)
}.

Definition apiUrl : string :=
  "https://comunicaapi.pje.jus.br/api/v1/comunicacao".

(** Lines 48-54 and 67-73: the destructured query, and the [params] object
    built from it. *)
Definition params_of (req : request) : value :=
  let nomeAdvogado :=
    destructure (query req) "nomeAdvogado" (VStr "Eduardo Koetz") in
  let dataDisponibilizacaoInicio :=
    get (query req) "dataDisponibilizacaoInicio" in
  let dataDisponibilizacaoFim :=
    get (query req) "dataDisponibilizacaoFim" in
  let itensPorPagina :=
    destructure (query req) "itensPorPagina" (VStr "100") in
  let meio := destructure (query req) "meio" (VStr "D") in
  VObj
    [("nomeAdvogado", nomeAdvogado);
     ("dataDisponibilizacaoInicio", dataDisponibilizacaoInicio);
     ("dataDisponibilizacaoFim", dataDisponibilizacaoFim);
     ("itensPorPagina", itensPorPagina);
     ("meio", meio)].

(** Line 57: [!dataDisponibilizacaoInicio || !dataDisponibilizacaoFim]. *)
Definition missing_required (req : request) : bool :=
  negb (truthy (get (query req) "dataDisponibilizacaoInicio"))
  || negb (truthy (get (query req) "dataDisponibilizacaoFim")).

(** Lines 58-62: the body of the 400 response. *)
Definition bad_request (req : request) : value :=
  VObj
    [("success", VBool false);
     ("error", VStr "Parâmetros obrigatórios: dataDisponibilizacaoInicio, dataDisponibilizacaoFim");
     ("received_params", VObj (query req))].

(** Lines 79-87: the options handed to [axios.get]. *)
Definition axios_options (req : request) : axios_config :=
  {| params := params_of req;
     timeout := 30000;
     req_headers :=
       [("Accept", "application/json");
        ("User-Agent", "ADVBOX-Render-Proxy/1.0");
        ("Accept-Language", "pt-BR,pt;q=0.9,en;q=0.8")] |}.

(** Lines 93-108: the success envelope. *)
Definition resultado (req : request) (response : http_response)
    (timestamp count total_items : value) : value :=
  VObj
    [("success", VBool true);
     ("timestamp", timestamp);
     ("proxy_info", VObj
        [("service", VStr "Render.com");
         ("method", VStr "axios_get");
         ("status_code", VNum (status response));
         ("server_location", VStr "US/EU (Render)");
         ("parametros_enviados", params_of req)]);
     ("api_response", data response);
     ("stats", VObj
        [("total_intimacoes", or_else count (VNum 0));
         ("total_items", total_items)])].

(** Lines 115-128: the failure envelope. *)
Definition errorInfo (req : request) (error : JS.error) (timestamp : value)
    : value :=
  VObj
    [("success", VBool false);
     ("error", VStr (message error));
     ("timestamp", timestamp);
     ("debug_info", VObj
        [("service", VStr "Render.com");
         ("axios_error",
          match response error with
          | Some r => VObj
              [("status", VNum (status r));
               ("statusText", VStr (statusText r));
               ("headers", headers r)]
          | None => VStr "Network/timeout error"
          end);
         ("request_params", VObj (query req))])].

(** Lines 45-110: the [try] block. *)
Definition try_block (E : env) (req : request) : M unit :=
  console_log [VStr "📡 Nova requisição DJEN:"; VObj (query req)] ;;
  if missing_required req then
    res_status 400 ;;
    res_json (bad_request req)
  else
    console_log [VStr "🌐 Fazendo requisição para DJEN API..."] ;;
    console_log [VStr "📋 Parâmetros:"; params_of req] ;;
    response <- axios_get E apiUrl (axios_options req) ;;
    console_log [VStr "✅ Sucesso! Status:"; VNum (status response)] ;;
    logged_count <- lift (member (data response) "count") ;;
    console_log [VStr "📊 Total encontrado:"; logged_count] ;;
    timestamp <- new_Date_toISOString E ;;
    count <- lift (member (data response) "count") ;;
    items <- lift (member (data response) "items") ;;
    total_items <-
      (if truthy items
       then items' <- lift (member (data response) "items") ;;
            lift (member items' "length")
       else ret (VNum 0)) ;;
    res_json (resultado req response timestamp count total_items).

(** Lines 112-133: the [catch] block. *)
Definition catch_block (E : env) (req : request) (error : JS.error)
    : M unit :=
  console_error [VStr "❌ Erro na requisição DJEN:"; VStr (message error)] ;;
  timestamp <- new_Date_toISOString E ;;
  let statusCode :=
    match response error with
    | Some r => status r
    | None => 500
    end in
  res_status statusCode ;;
  res_json (errorInfo req error timestamp).

(** The [app.get('/djen', ...)] handler, lines 43-134. *)
Definition djen_handler (E : env) (req : request) : M unit :=
  try_catch (try_block E req) (catch_block E req).

(** One handled request: the trace left behind, and whether the handler's
    promise fulfilled. *)
Definition run (E : env) (req : request) : outcome unit * world :=
  djen_handler E req initial_world.

Definition events (E : env) (req : request) : list event :=
  trace (snd (run E req)).

(** The calls made to upstream and the responses written, read off a
    trace. *)
Fixpoint upstream_calls (t : list event) : list (string * axios_config) :=
  match t with
  | [] => []
  | AxiosGet url config :: t' => (url, config) :: upstream_calls t'
  | _ :: t' => upstream_calls t'
  end.

Fixpoint responses (t : list event) : list (Z * value) :=
  match t with
  | [] => []
  | Send code body :: t' => (code, body) :: responses t'
  | _ :: t' => responses t'
  end.

(** *** Concrete requests and environments *)

Definition dated_query : list (string * value) :=
  [("dataDisponibilizacaoInicio", VStr "2024-01-01");
   ("dataDisponibilizacaoFim", VStr "2024-01-02")].

(** [GET /djen?dataDisponibilizacaoInicio=2024-01-01&dataDisponibilizacaoFim=2024-01-02] *)
Definition dated_request : request := {| query := dated_query |}.

(** [GET /djen?dataDisponibilizacaoInicio=2024-01-01]: no end date. *)
Definition request_without_end : request :=
  {| query := [("dataDisponibilizacaoInicio", VStr "2024-01-01")] |}.

(** [GET /djen?dataDisponibilizacaoInicio=2024-01-01&dataDisponibilizacaoFim=] *)
Definition request_with_empty_end : request :=
  {| query := [("dataDisponibilizacaoInicio", VStr "2024-01-01");
               ("dataDisponibilizacaoFim", VStr "")] |}.

Definition answering (r : axios_result) : env :=
  {| now := "2024-01-03T09:00:00.000Z"; upstream := fun _ _ => r |}.

(** Upstream answers [200 OK] with two notices. *)
Definition two_notices : http_response :=
  {| status := 200; statusText := "OK"; headers := VObj [];
     data := VObj [("count", VNum 2);
                   ("items", VArr [VObj [("id", VNum 1)];
                                   VObj [("id", VNum 2)]])] |}.

(** Upstream answers [200 OK] with the JSON document [null]. *)
Definition null_document : http_response :=
  {| status := 200; statusText := "OK"; headers := VObj [];
     data := VNull |}.

(** Upstream answers [403 Forbidden], which axios turns into a rejection
    carrying the response. *)
Definition forbidden : error :=
  {| message := "Request failed with status code 403";
     response := Some {| status := 403; statusText := "Forbidden";
                         headers := VObj []; data := VStr "" |} |}.

(** No answer within the time allowed: axios rejects without a response. *)
Definition timed_out : error :=
  {| message := "timeout of 30000ms exceeded"; response := None |}.

End Proxy.

(** ** The notice tables *)

Module Store.

(** Column types used by the two scripts. *)
Inductive sqltype : Type :=
| UUID
| VARCHAR (n : nat)
| TEXT
| DATE
| TIMESTAMP
| TIMESTAMPTZ
| JSONB
| INTEGER
| NUMERIC.

(** A non-NULL SQL value.  A date is a day number, a timestamp a count of
    microseconds, a [jsonb] value its canonical text.  SQL [NULL] is [None]
    in [option datum]. *)
Inductive datum : Type :=
| DUuid (u : string)
| DText (s : string)
| DDate (d : Z)
| DTime (t : Z)
| DJson (j : string)
| DInt (n : Z).

Definition datum_eq_dec (a b : datum) : {a = b} + {a <> b}.
Proof.
  decide equality; first [apply string_dec | apply Z.eq_dec].
Defined.

Inductive default_expr : Type :=
| gen_random_uuid
| NOW
| Literal (d : datum).

Record column : Type := {
  col_name : string;
  col_type : sqltype;
  col_default : option default_expr;
  not_null : bool;
  unique : bool;
  primary_key : bool
}.

(** Column definitions are written as in the DDL: a name and a type, then
    the column constraints. *)
Definition col (name : string) (ty : sqltype) : column :=
  {| col_name := name; col_type := ty; col_default := None;
     not_null := false; unique := false; primary_key := false |}.

Definition DEFAULT (e : default_expr) (c : column) : column :=
  {| col_name := col_name c; col_type := col_type c; col_default := Some e;
     not_null := not_null c; unique := unique c;
     primary_key := primary_key c |}.

Definition NOT_NULL (c : column) : column :=
  {| col_name := col_name c; col_type := col_type c;
     col_default := col_default c;
     not_null := true; unique := unique c; primary_key := primary_key c |}.

Definition UNIQUE (c : column) : column :=
  {| col_name := col_name c; col_type := col_type c;
     col_default := col_default c;
     not_null := not_null c; unique := true; primary_key := primary_key c |}.

Definition PRIMARY_KEY (c : column) : column :=
  {| col_name := col_name c; col_type := col_type c;
     col_default := col_default c;
     not_null := not_null c; unique := unique c; primary_key := true |}.

(** A [CREATE TABLE]: the columns, and the table-level
    [CONSTRAINT name UNIQUE (column)] clauses. *)
Record table_def : Type := {
  tbl_name : string;
  columns : list column;
  unique_constraints : list (string * string)
}.

(** [create_tables.sql], lines 5-19. *)
Definition intimacoes_eduardo_koetz : table_def :=
  {| tbl_name := "intimacoes_eduardo_koetz";
     columns :=
       [PRIMARY_KEY (DEFAULT gen_random_uuid (col "id" UUID));
        NOT_NULL (UNIQUE (col "id_intimacao" (VARCHAR 255)));
        col "numero_processo" (VARCHAR 50);
        col "tribunal" (VARCHAR 100);
        col "orgao_julgador" (VARCHAR 255);
        col "data_publicacao" DATE;
        col "tipo_comunicacao" (VARCHAR 100);
        DEFAULT NOW (col "data_extracao" TIMESTAMP);
        NOT_NULL (col "conteudo_texto" TEXT);
        col "conteudo_original" JSONB;
        UNIQUE (col "hash_conteudo" (VARCHAR 255));
        col "metadados" JSONB;
        DEFAULT (Literal (DText "extraido"))
          (col "status_processamento" (VARCHAR 50))];
     unique_constraints := [] |}.

(** [SETUP_SUPABASE.md], lines 29-46. *)
Definition intimacoes_djen : table_def :=
  {| tbl_name := "intimacoes_djen";
     columns :=
       [PRIMARY_KEY (DEFAULT gen_random_uuid (col "id" UUID));
        NOT_NULL (UNIQUE (col "id_intimacao" TEXT));
        col "numero_processo" TEXT;
        col "tribunal" TEXT;
        col "orgao_julgador" TEXT;
        col "data_publicacao" DATE;
        col "tipo_comunicacao" TEXT;
        NOT_NULL (col "conteudo_texto" TEXT);
        DEFAULT NOW (col "data_extracao" TIMESTAMPTZ);
        col "hash_conteudo" TEXT;
        col "metadados" JSONB;
        col "conteudo_original" JSONB;
        DEFAULT (Literal (DText "extraido"))
          (col "status_processamento" TEXT);
        col "tipo_documento" TEXT];
     unique_constraints := [("unique_intimacao", "id_intimacao")] |}.

(** A stored row: one possibly-NULL value per column, by column name. *)
Definition row : Type := list (string * option datum).
Definition table : Type := list row.

Fixpoint assoc {A} (k : string) (l : list (string * A)) : option A :=
  match l with
  | [] => None
  | (k', a) :: rest => if (k =? k')%string then Some a else assoc k rest
  end.

Definition field (name : string) (r : row) : option datum :=
  match assoc name r with
  | Some v => v
  | None => None
  end.

(** An [INSERT INTO t (c1, ..., cn) VALUES (v1, ..., vn)] of one row,
    together with what [gen_random_uuid()] and [NOW()] evaluate to while it
    runs.  A column left out takes its default; [Some None] is an explicit
    [NULL]. *)
Record insert_stmt : Type := {
  values : list (string * option datum);
  fresh_uuid : string;
  clock : Z
}.

Inductive sql_error : Type :=
| undefined_column (c : string)
| datatype_mismatch (c : string)
| string_data_right_truncation (c : string)
| numeric_value_out_of_range (c : string)
| not_null_violation (c : string)
| unique_violation (c : string).

Fixpoint all_spaces (s : string) : bool :=
  match s with
  | EmptyString => true
  | String a s' => (Ascii.eqb a " "%char) && all_spaces s'
  end.

(** Assignment of a value to a column of type [ty].  A string longer than a
    [VARCHAR(n)] is an error unless the excess is all spaces, in which case
    it is cut to [n] characters. *)
Definition coerce (name : string) (ty : sqltype) (d : datum)
    : sql_error + datum :=
  match ty, d with
  | UUID, DUuid _ => inr d
  | TEXT, DText _ => inr d
  | DATE, DDate _ => inr d
  | TIMESTAMP, DTime _ => inr d
  | TIMESTAMPTZ, DTime _ => inr d
  | JSONB, DJson _ => inr d
  | NUMERIC, DInt _ => inr d
  | INTEGER, DInt n =>
      if (- 2 ^ 31 <=? n) && (n <? 2 ^ 31) then inr d
      else inl (numeric_value_out_of_range name)
  | VARCHAR n, DText s =>
      if (String.length s <=? n)%nat then inr d
      else if all_spaces (substring n (String.length s - n) s)
           then inr (DText (substring 0 n s))
           else inl (string_data_right_truncation name)
  | _, _ => inl (datatype_mismatch name)
  end.

Definition eval_default (s : insert_stmt) (e : default_expr) : datum :=
  match e with
  | gen_random_uuid => DUuid (fresh_uuid s)
  | NOW => DTime (clock s)
  | Literal d => d
  end.

Definition column_value (s : insert_stmt) (c : column)
    : sql_error + option datum :=
  match assoc (col_name c) (values s) with
  | Some None => inr None
  | Some (Some d) =>
      match coerce (col_name c) (col_type c) d with
      | inr d' => inr (Some d')
      | inl e => inl e
      end
  | None =>
      match col_default c with
      | Some e =>
          match coerce (col_name c) (col_type c) (eval_default s e) with
          | inr d' => inr (Some d')
          | inl e => inl e
          end
      | None => inr None
      end
  end.

Fixpoint build_row (s : insert_stmt) (cols : list column)
    : sql_error + row :=
  match cols with
  | [] => inr []
  | c :: rest =>
      match column_value s c with
      | inl e => inl e
      | inr v =>
          match build_row s rest with
          | inl e => inl e
          | inr r => inr ((col_name c, v) :: r)
          end
      end
  end.

(** Every column named by the statement must exist. *)
Fixpoint check_columns (cols : list column)
    (vs : list (string * option datum)) : option sql_error :=
  match vs with
  | [] => None
  | (k, _) :: rest =>
      if existsb (fun c => (col_name c =? k)%string) cols
      then check_columns cols rest
      else Some (undefined_column k)
  end.

Definition is_not_null (c : column) : bool :=
  not_null c || primary_key c.

Definition is_unique (d : table_def) (c : column) : bool :=
  unique c || primary_key c
  || existsb (fun uc => (snd uc =? col_name c)%string)
       (unique_constraints d).

Fixpoint check_not_null (cols : list column) (r : row)
    : option sql_error :=
  match cols with
  | [] => None
  | c :: rest =>
      if is_not_null c then
        match field (col_name c) r with
        | None => Some (not_null_violation (col_name c))
        | Some _ => check_not_null rest r
        end
      else check_not_null rest r
  end.

(** Does some stored row already hold the non-NULL value [v] in column
    [name]?  NULLs never collide. *)
Definition taken (name : string) (v : datum) (t : table) : bool :=
  existsb
    (fun r =>
       match field name r with
       | Some v' => if datum_eq_dec v' v then true else false
       | None => false
       end) t.

Fixpoint check_unique (d : table_def) (cols : list column) (t : table)
    (r : row) : option sql_error :=
  match cols with
  | [] => None
  | c :: rest =>
      if is_unique d c then
        match field (col_name c) r with
        | Some v =>
            if taken (col_name c) v t
            then Some (unique_violation (col_name c))
            else check_unique d rest t r
        | None => check_unique d rest t r
        end
      else check_unique d rest t r
  end.

(** One [INSERT]: either the statement fails and the table is left as it
    was, or the new row is appended. *)
Definition insert (d : table_def) (t : table) (s : insert_stmt)
    : sql_error + table :=
  match check_columns (columns d) (values s) with
  | Some e => inl e
  | None =>
      match build_row s (columns d) with
      | inl e => inl e
      | inr r =>
          match check_not_null (columns d) r with
          | Some e => inl e
          | None =>
              match check_unique d (columns d) t r with
              | Some e => inl e
              | None => inr (t ++ [r])%list
              end
          end
      end
  end.

(** A sequence of [INSERT]s run one after the other; a failed statement
    changes nothing. *)
Fixpoint exec (d : table_def) (t : table) (stmts : list insert_stmt)
    : table :=
  match stmts with
  | [] => t
  | s :: rest =>
      match insert d t s with
      | inr t' => exec d t' rest
      | inl _ => exec d t rest
      end
  end.

(** The values held in column [name], NULLs included. *)
Definition column_values (name : string) (t : table) : list (option datum) :=
  map (field name) t.

(** *** Concrete statements *)

(** [INSERT INTO ... (id_intimacao, conteudo_texto) VALUES ('12345', '')]. *)
Definition notice_with_empty_text : insert_stmt :=
  {| values := [("id_intimacao", Some (DText "12345"));
                ("conteudo_texto", Some (DText ""))];
     fresh_uuid := "6f1c2d3e-0000-4000-8000-000000000001";
     clock := 1704272400000000 |}.

End Store.

(** ** The Express application around the handler *)

Module App.
Import JS Proxy.

(** Request methods; [OTHER] carries the name of any further method the
    HTTP parser lets through ([TRACE], [PROPFIND], ...). *)
Inductive http_method : Type :=
| GET | HEAD | POST | PUT | DELETE | PATCH | OPTIONS
| OTHER (name : string).

(** [req.method]. *)
Definition method_name (m : http_method) : string :=
  match m with
  | GET => "GET" | HEAD => "HEAD" | POST => "POST" | PUT => "PUT"
  | DELETE => "DELETE" | PATCH => "PATCH" | OPTIONS => "OPTIONS"
  | OTHER name => name
  end.

(** An incoming request as the application reads it: [req.method],
    [req.path], [req.originalUrl], [req.ip] and [req.query]. *)
Record app_request : Type := {
  req_method : http_method;
  req_path : string;
  req_originalUrl : string;
  req_ip : string;
  req_query : list (string * value)
}.

(** The process and its surroundings: successive readings of
    [new Date().toISOString()], [process.uptime()] (a number of seconds,
    kept as an opaque value), and the upstream service. *)
Record host : Type := {
  iso_time : nat -> string;
  uptime : value;
  upstream_service : string -> axios_config -> axios_result
}.

(** While one request is handled the logging middleware takes the first
    clock reading and the route handler the second. *)
Definition handler_env (H : host) : env :=
  {| now := iso_time H 1; upstream := upstream_service H |}.

(** A middleware either hands the request on with [next()] or ends it. *)
Inductive control : Type := Next | Responded.

Definition middleware : Type := app_request -> M control.

(** Lines 13-16: the access log. *)
Definition logger (H : host) : middleware :=
  fun req =>
    console_log
      [VStr (iso_time H 0 ++ " - " ++ method_name (req_method req) ++ " "
               ++ req_path req ++ " - IP: " ++ req_ip req)] ;;
    ret Next.

(** Lines 19-31: [GET /]. *)
Definition info_handler (H : host) (req : app_request) : M unit :=
  timestamp <- new_Date_toISOString (handler_env H) ;;
  res_json (VObj
    [("service", VStr "ADVBOX DJEN Proxy");
     ("status", VStr "online");
     ("timestamp", timestamp);
     ("version", VStr "1.0.0");
     ("description",
      VStr "Proxy service to bypass CloudFront restrictions for DJEN API");
     ("endpoints", VObj
        [("/djen", VStr "GET - Proxy para API DJEN");
         ("/health", VStr "GET - Health check")])]).

(** Lines 34-40: [GET /health]. *)
Definition health_handler (H : host) (req : app_request) : M unit :=
  timestamp <- new_Date_toISOString (handler_env H) ;;
  res_json (VObj
    [("status", VStr "healthy");
     ("timestamp", timestamp);
     ("uptime", uptime H)]).

(** Lines 137-143: the catch-all mounted with [app.use('*', ...)]. *)
Definition not_found_handler (req : app_request) : M unit :=
  res_status 404 ;;
  res_json (VObj
    [("error", VStr "Endpoint não encontrado");
     ("available_endpoints",
      VArr [VStr "/"; VStr "/health"; VStr "/djen"]);
     ("requested", VStr (req_originalUrl req))]).

(** Route matching as Express 4 does it by default: letter case is
    ignored and one trailing slash is optional. *)
Definition to_lower (c : ascii) : ascii :=
  let n := nat_of_ascii c in
  if (65 <=? n)%nat && (n <=? 90)%nat then ascii_of_nat (n + 32) else c.

Fixpoint lowercase (s : string) : string :=
  match s with
  | EmptyString => EmptyString
  | String c s' => String (to_lower c) (lowercase s')
  end.

Fixpoint without_trailing_slash (s : string) : string :=
  match s with
  | EmptyString => EmptyString
  | String c EmptyString =>
      if Ascii.eqb c "/"%char then EmptyString else s
  | String c s' => String c (without_trailing_slash s')
  end.

Definition path_matches (pattern path : string) : bool :=
  (lowercase (without_trailing_slash path)
   =? lowercase (without_trailing_slash pattern))%string.

(** A route registered with [app.get] serves [GET], and [HEAD] in the
    absence of a [HEAD] route. *)
Definition handles_get (m : http_method) : bool :=
  match m with
  | GET | HEAD => true
  | _ => false
  end.

Definition get_route (pattern : string) (req : app_request) : bool :=
  handles_get (req_method req) && path_matches pattern (req_path req).

(** Lines 19-143: the routes, tried in the order they are registered. *)
Definition router (H : host) (req : app_request) : M unit :=
  if get_route "/" req then info_handler H req
  else if get_route "/health" req then health_handler H req
  else if get_route "/djen" req then
    djen_handler (handler_env H) {| query := req_query req |}
  else not_found_handler req.

Fixpoint chain (mws : list middleware) (final : app_request -> M unit)
    (req : app_request) : M unit :=
  match mws with
  | [] => final req
  | mw :: rest =>
      c <- mw req ;;
      match c with
      | Next => chain rest final req
      | Responded => ret tt
      end
  end.

(** Lines 5-143: the application.  The two library middlewares of lines
    9-10, [cors()] and [express.json()], are parameters. *)
Definition app (cors express_json : middleware) (H : host)
    (req : app_request) : M unit :=
  chain [cors; express_json; logger H] (router H) req.

Definition serve (cors express_json : middleware) (H : host)
    (req : app_request) : list event :=
  trace (snd (app cors express_json H req initial_world)).

(** A middleware that hands this request on and leaves no trace, as
    [cors()] does for a request that is not a preflight and
    [express.json()] for one without a body. *)
Definition passes (mw : middleware) (req : app_request) : Prop :=
  forall w, mw req w = (Normal Next, w).

Definition pass_through : middleware := fun _ => ret Next.

(** *** Concrete hosts and requests *)

Definition quiet_host (r : axios_result) : host :=
  {| iso_time := fun n =>
       match n with
       | O => "2024-01-03T09:00:00.000Z"
       | _ => "2024-01-03T09:00:00.004Z"
       end;
     uptime := VNum 42;
     upstream_service := fun _ _ => r |}.

Definition get_request (path : string) (q : list (string * value))
    : app_request :=
  {| req_method := GET; req_path := path; req_originalUrl := path;
     req_ip := "203.0.113.7"; req_query := q |}.


End App.

(** ** The run-log tables and the seed row *)

Module Logs.
Import Store.

(** [create_tables.sql], lines 29-40. *)
Definition logs_extracao_djen : table_def :=
  {| tbl_name := "logs_extracao_djen";
     columns :=
       [PRIMARY_KEY (DEFAULT gen_random_uuid (col "id" UUID));
        DEFAULT NOW (col "data_extracao" TIMESTAMP);
        DEFAULT (Literal (DInt 0)) (col "total_encontradas" INTEGER);
        DEFAULT (Literal (DInt 0)) (col "total_novas" INTEGER);
        DEFAULT (Literal (DInt 0)) (col "total_duplicadas" INTEGER);
        col "status_execucao" (VARCHAR 50);
        col "erro_detalhes" TEXT;
        col "tempo_execucao_segundos" INTEGER;
        col "parametros_busca" JSONB;
        col "response_api" JSONB];
     unique_constraints := [] |}.

(** [SETUP_SUPABASE.md], lines 57-68. *)
Definition logs_execucao : table_def :=
  {| tbl_name := "logs_execucao";
     columns :=
       [PRIMARY_KEY (DEFAULT gen_random_uuid (col "id" UUID));
        DEFAULT (Literal (DInt 0)) (col "total_encontradas" INTEGER);
        DEFAULT (Literal (DInt 0)) (col "total_novas" INTEGER);
        DEFAULT (Literal (DInt 0)) (col "total_duplicadas" INTEGER);
        DEFAULT (Literal (DText "sucesso")) (col "status_execucao" TEXT);
        DEFAULT NOW (col "data_extracao" TIMESTAMPTZ);
        col "tempo_execucao_segundos" NUMERIC;
        col "erro_detalhes" TEXT;
        col "parametros_busca" JSONB;
        col "response_api" JSONB];
     unique_constraints := [] |}.

(** [INSERT ... ON CONFLICT DO NOTHING]: a row that collides on a unique
    index is skipped without an error; every other failure is still
    raised. *)
Definition insert_on_conflict_do_nothing (d : table_def) (t : table)
    (s : insert_stmt) : sql_error + table :=
  match insert d t s with
  | inl (unique_violation _) => inr t
  | r => r
  end.

Definition dq : string := String (ascii_of_nat 34) EmptyString.

(** [create_tables.sql], lines 58-72: the row the script inserts after
    creating the tables. *)
Definition seed_stmt (uuid : string) (clk : Z) : insert_stmt :=
  {| values :=
       [("total_encontradas", Some (DInt 0));
        ("total_novas", Some (DInt 0));
        ("total_duplicadas", Some (DInt 0));
        ("status_execucao", Some (DText "sistema_criado"));
        ("tempo_execucao_segundos", Some (DInt 0));
        ("parametros_busca",
         Some (DJson ("{" ++ dq ++ "evento" ++ dq ++ ": "
                        ++ dq ++ "criacao_tabelas" ++ dq ++ ", "
                        ++ dq ++ "versao" ++ dq ++ ": "
                        ++ dq ++ "1.0" ++ dq ++ "}")))];
     fresh_uuid := uuid;
     clock := clk |}.

Definition seed_row (uuid : string) (clk : Z) : row :=
  [("id", Some (DUuid uuid));
   ("data_extracao", Some (DTime clk));
   ("total_encontradas", Some (DInt 0));
   ("total_novas", Some (DInt 0));
   ("total_duplicadas", Some (DInt 0));
   ("status_execucao", Some (DText "sistema_criado"));
   ("erro_detalhes", None);
   ("tempo_execucao_segundos", Some (DInt 0));
   ("parametros_busca",
    Some (DJson ("{" ++ dq ++ "evento" ++ dq ++ ": "
                   ++ dq ++ "criacao_tabelas" ++ dq ++ ", "
                   ++ dq ++ "versao" ++ dq ++ ": "
                   ++ dq ++ "1.0" ++ dq ++ "}")));
   ("response_api", None)].

(** Running the seed statement once per execution of the script. *)
Fixpoint run_seed (t : table) (runs : list (string * Z)) : table :=
  match runs with
  | [] => t
  | (uuid, clk) :: rest =>
      match insert_on_conflict_do_nothing logs_extracao_djen t
              (seed_stmt uuid clk) with
      | inr t' => run_seed t' rest
      | inl _ => run_seed t rest
      end
  end.



(** The non-NULL values of a column. *)
Fixpoint present (vs : list (option datum)) : list datum :=
  match vs with
  | [] => []
  | Some v :: rest => v :: present rest
  | None :: rest => present rest
  end.

(** The four tables of the repository. *)
Definition tables : list table_def :=
  [intimacoes_eduardo_koetz; intimacoes_djen;
   logs_extracao_djen; logs_execucao].

(** *** Concrete statements *)

Definition notice (id_intimacao : string) (hash : option string)
    (uuid : string) : insert_stmt :=
  {| values :=
       [("id_intimacao", Some (DText id_intimacao));
        ("conteudo_texto", Some (DText "Intimem-se as partes."));
        ("hash_conteudo",
         match hash with Some h => Some (DText h) | None => None end)];
     fresh_uuid := uuid;
     clock := 1704272400000000 |}.

End Logs.

(** ** The two text substitutions *)

Module Cleanup.

Local Open Scope N_scope.

(** Text as Python sees it: a sequence of code points. *)
Definition text : Type := list N.

Definition LT : N := 60.       (* < *)
Definition GT : N := 62.       (* > *)
Definition SLASH : N := 47.    (* / *)
Definition LETTER_b : N := 98.
Definition LETTER_r : N := 114.
Definition NEWLINE : N := 10.

(** What the class [\s] matches in a [str] pattern. *)
Definition is_space (c : N) : bool :=
  ((9 <=? c) && (c <=? 13)) || ((28 <=? c) && (c <=? 32))
  || (c =? 133) || (c =? 160) || (c =? 5760)
  || ((8192 <=? c) && (c <=? 8202))
  || (c =? 8232) || (c =? 8233) || (c =? 8239) || (c =? 8287)
  || (c =? 12288).

(** [re.sub(pattern, repl, s)] for a pattern that never matches the empty
    string: scanning from the left, each match is replaced by [repl] and
    the scan resumes after it; code points outside a match are copied.
    [matcher s] is the length of the match that starts at the head of [s],
    if there is one; [skip] counts the code points of the current match
    still to be passed over. *)
Fixpoint sub_from (matcher : text -> option nat) (repl : text) (skip : nat)
    (s : text) : text :=
  match s with
  | [] => []
  | c :: rest =>
      match skip with
      | S k => sub_from matcher repl k rest
      | O =>
          match matcher s with
          | Some (S n) => (repl ++ sub_from matcher repl n rest)%list
          | _ => c :: sub_from matcher repl 0 rest
          end
      end
  end.

Definition sub (matcher : text -> option nat) (repl : text) (s : text)
    : text :=
  sub_from matcher repl 0 s.

(** The position of the first [>], if any. *)
Fixpoint first_gt (s : text) : option nat :=
  match s with
  | [] => None
  | c :: rest =>
      if (c =? GT)%N then Some O
      else match first_gt rest with
           | Some k => Some (S k)
           | None => None
           end
  end.

(** The pattern [<[^>]*>]: a [<], then everything up to the next [>]. *)
Definition match_tag (s : text) : option nat :=
  match s with
  | c :: rest =>
      if (c =? LT)%N then
        match first_gt rest with
        | Some k => Some (S (S k))
        | None => None
        end
      else None
  | [] => None
  end.

Fixpoint leading_spaces (s : text) : nat :=
  match s with
  | c :: rest => if is_space c then S (leading_spaces rest) else O
  | [] => O
  end.

(** The pattern [<br\s*/?>]. *)
Definition match_br (s : text) : option nat :=
  match s with
  | c1 :: c2 :: c3 :: rest =>
      if (c1 =? LT)%N && (c2 =? LETTER_b)%N && (c3 =? LETTER_r)%N then
        let n := leading_spaces rest in
        match skipn n rest with
        | d1 :: d2 :: _ =>
            if (d1 =? GT)%N then Some (4 + n)%nat
            else if (d1 =? SLASH)%N && (d2 =? GT)%N then Some (5 + n)%nat
            else None
        | [d1] => if (d1 =? GT)%N then Some (4 + n)%nat else None
        | [] => None
        end
      else None
  | _ => None
  end.

(** [SETUP_SUPABASE.md], line 371: [re.sub(r'<[^>]*>', '', limpo)]. *)
Definition strip_tags (limpo : text) : text :=
  sub match_tag [] limpo.

(** [SETUP_SUPABASE.md], line 372: [re.sub(r'<br\s*/?>', '\n', limpo)]. *)
Definition br_to_newline (limpo : text) : text :=
  sub match_br [NEWLINE] limpo.

(** Does the text hold no [<] with a [>] somewhere after it? *)
Fixpoint tag_free (s : text) : bool :=
  match s with
  | [] => true
  | c :: rest =>
      negb ((c =? LT)%N && existsb (fun x => (x =? GT)%N) rest)
      && tag_free rest
  end.

(** *** Concrete texts *)

(** [Prazo: <b>5 dias</b>.<br />Intimem-se.] *)
Definition sample_markup : text :=
  [80; 114; 97; 122; 111; 58; 32; 60; 98; 62; 53; 32; 100; 105; 97; 115;
   60; 47; 98; 62; 46; 60; 98; 114; 32; 47; 62; 73; 110; 116; 105; 109;
   101; 109; 45; 115; 101; 46]%N.

(** [Prazo: 5 dias. 2 < 3] *)
Definition sample_plain : text :=
  [80; 114; 97; 122; 111; 58; 32; 53; 32; 100; 105; 97; 115; 46; 32; 50;
   32; 60; 32; 51]%N.

End Cleanup.

(** * Properties of the proxy *)

Import JS Proxy.

(** ** The four ways through the handler *)

Section Paths.

Variable E : env.
Variable req : request.

Ltac run_handler :=
  unfold events, run, djen_handler, try_catch, try_block, catch_block,
    bind, console_log, console_error, res_status, res_json, axios_get,
    new_Date_toISOString, ret, lift, throw, emit, initial_world.

(** Validation fails: one 400 response, nothing sent upstream. *)
Lemma path_bad_request :
  missing_required req = true ->
  fst (run E req) = Normal tt /\
  upstream_calls (events E req) = [] /\
  responses (events E req) = [(400, bad_request req)].
Proof.
  intros Hm. run_handler. rewrite Hm. cbn. auto.
Qed.

(** Validation passes and axios rejects. *)
Lemma path_rejected (e : error) :
  missing_required req = false ->
  upstream E apiUrl (axios_options req) = Rejected e ->
  fst (run E req) = Normal tt /\
  upstream_calls (events E req) = [(apiUrl, axios_options req)] /\
  responses (events E req) =
    [(match response e with Some r => status r | None => 500 end,
      errorInfo req e (VStr (now E)))].
Proof.
  intros Hm Hu. run_handler. rewrite Hm, Hu. cbn. auto.
Qed.

(** Validation passes, axios fulfils, and reading [response.data.count]
    throws. *)
Lemma path_thrown (r : http_response) (e : error) :
  missing_required req = false ->
  upstream E apiUrl (axios_options req) = Fulfilled r ->
  member (data r) "count" = inl e ->
  fst (run E req) = Normal tt /\
  upstream_calls (events E req) = [(apiUrl, axios_options req)] /\
  responses (events E req) = [(500, errorInfo req e (VStr (now E)))].
Proof.
  intros Hm Hu He. run_handler. rewrite Hm, Hu. cbn -[member].
  rewrite He. cbn.
  assert (Hr : response e = None).
  { destruct (data r); cbn in He; inversion He; reflexivity. }
  rewrite Hr. auto.
Qed.

(** Validation passes, axios fulfils, and the body can be read. *)
Lemma path_fulfilled (r : http_response) :
  missing_required req = false ->
  upstream E apiUrl (axios_options req) = Fulfilled r ->
  data r <> VNull ->
  data r <> VUndefined ->
  fst (run E req) = Normal tt /\
  upstream_calls (events E req) = [(apiUrl, axios_options req)] /\
  responses (events E req) =
    [(200,
      resultado req r (VStr (now E)) (prop (data r) "count")
        (if truthy (prop (data r) "items")
         then prop (prop (data r) "items") "length"
         else VNum 0))].
Proof.
  intros Hm Hu Hn Hd. run_handler. rewrite Hm, Hu. cbn -[member prop].
  assert (Hk : forall k, member (data r) k = inr (prop (data r) k)).
  { intros k. destruct (data r); try reflexivity; congruence. }
  rewrite !Hk. cbn -[member prop].
  destruct (truthy (prop (data r) "items")) eqn:Ht.
  - assert (Hl : member (prop (data r) "items") "length"
                 = inr (prop (prop (data r) "items") "length")).
    { destruct (prop (data r) "items"); try reflexivity; discriminate Ht. }
    rewrite Hl. cbn. auto.
  - cbn. auto.
Qed.

(** The handler's promise never rejects, whatever happens upstream. *)
Lemma handler_returns : fst (run E req) = Normal tt.
Proof.
  destruct (missing_required req) eqn:Hm.
  - apply path_bad_request; exact Hm.
  - destruct (upstream E apiUrl (axios_options req)) as [r | e] eqn:Hu.
    + destruct (member (data r) "count") as [e | c] eqn:Hc.
      * eapply path_thrown; eauto.
      * apply (path_fulfilled r); auto;
          intros Hd; rewrite Hd in Hc; discriminate Hc.
    + eapply path_rejected; eauto.
Qed.

End Paths.

(** ** What goes upstream *)

Lemma no_call_when_missing (E : env) (req : request) :
  missing_required req = true ->
  upstream_calls (events E req) = [].
Proof.
  intros Hm. apply (path_bad_request E req Hm).
Qed.

Lemma one_call_when_valid (E : env) (req : request) :
  missing_required req = false ->
  upstream_calls (events E req) = [(apiUrl, axios_options req)].
Proof.
  intros Hm.
  destruct (upstream E apiUrl (axios_options req)) as [r | e] eqn:Hu.
  - destruct (member (data r) "count") as [e | c] eqn:Hc.
    + eapply path_thrown; eauto.
    + apply (path_fulfilled E req r); auto;
        intros Hd; rewrite Hd in Hc; discriminate Hc.
  - eapply path_rejected; eauto.
Qed.

(** A call found in the trace is the one call the handler makes, and it was
    made because validation passed. *)
Lemma call_inversion (E : env) (req : request) (url : string)
    (cfg : axios_config) :
  In (url, cfg) (upstream_calls (events E req)) ->
  missing_required req = false /\ url = apiUrl /\ cfg = axios_options req.
Proof.
  intros Hin. destruct (missing_required req) eqn:Hm.
  - rewrite (no_call_when_missing E req Hm) in Hin. destruct Hin.
  - rewrite (one_call_when_valid E req Hm) in Hin.
    destruct Hin as [Heq | []]. inversion Heq. auto.
Qed.

Lemma missing_required_false (req : request) :
  truthy (get (query req) "dataDisponibilizacaoInicio") = true ->
  truthy (get (query req) "dataDisponibilizacaoFim") = true ->
  missing_required req = false.
Proof.
  intros H1 H2. unfold missing_required. rewrite H1, H2. reflexivity.
Qed.

(** Exactly one response leaves the handler on every path. *)
Lemma one_response (E : env) (req : request) :
  exists code body, responses (events E req) = [(code, body)].
Proof.
  destruct (missing_required req) eqn:Hm.
  - do 2 eexists. apply (path_bad_request E req Hm).
  - destruct (upstream E apiUrl (axios_options req)) as [r | e] eqn:Hu.
    + destruct (member (data r) "count") as [e | c] eqn:Hc.
      * do 2 eexists. eapply path_thrown; eauto.
      * do 2 eexists. apply (path_fulfilled E req r); auto;
          intros Hd; rewrite Hd in Hc; discriminate Hc.
    + do 2 eexists. eapply path_rejected; eauto.
Qed.

(** ** Validation *)

(** C1: when [dataDisponibilizacaoInicio] or [dataDisponibilizacaoFim] is
    absent from the query, the handler answers HTTP 400 with the structured
    error body (success flag, message, the received parameters) and makes no
    call to the upstream API. *)
Theorem absent_date_is_rejected (E : env) (req : request) :
  lookup "dataDisponibilizacaoInicio" (query req) = None \/
  lookup "dataDisponibilizacaoFim" (query req) = None ->
  responses (events E req) =
    [(400,
      VObj
        [("success", VBool false);
         ("error", VStr "Parâmetros obrigatórios: dataDisponibilizacaoInicio, dataDisponibilizacaoFim");
         ("received_params", VObj (query req))])]
  /\ upstream_calls (events E req) = [].
Proof.
  intros H.
  assert (Hm : missing_required req = true).
  { unfold missing_required, get.
    destruct H as [H | H]; rewrite H; cbn;
      [reflexivity | apply orb_true_r]. }
  destruct (path_bad_request E req Hm) as (_ & Hc & Hr).
  split; assumption.
Qed.

Lemma absent_date_is_rejected_witness :
  (lookup "dataDisponibilizacaoInicio" (query request_without_end) = None \/
   lookup "dataDisponibilizacaoFim" (query request_without_end) = None)
  /\ responses (events (answering (Fulfilled two_notices))
                  request_without_end) =
       [(400,
         VObj
           [("success", VBool false);
            ("error", VStr "Parâmetros obrigatórios: dataDisponibilizacaoInicio, dataDisponibilizacaoFim");
            ("received_params", VObj (query request_without_end))])]
  /\ upstream_calls (events (answering (Fulfilled two_notices))
                       request_without_end) = [].
Proof.
  split.
  - right. reflexivity.
  - apply (absent_date_is_rejected (answering (Fulfilled two_notices))
             request_without_end).
    right. reflexivity.
Defined.

(** C9: an empty-string [dataDisponibilizacaoInicio] or
    [dataDisponibilizacaoFim] is treated like an absent one: the handler
    answers HTTP 400, echoing the received query, and does not contact
    upstream. *)
Theorem empty_date_is_rejected (E : env) (req : request) :
  lookup "dataDisponibilizacaoInicio" (query req) = Some (VStr "") \/
  lookup "dataDisponibilizacaoFim" (query req) = Some (VStr "") ->
  responses (events E req) =
    [(400,
      VObj
        [("success", VBool false);
         ("error", VStr "Parâmetros obrigatórios: dataDisponibilizacaoInicio, dataDisponibilizacaoFim");
         ("received_params", VObj (query req))])]
  /\ upstream_calls (events E req) = [].
Proof.
  intros H.
  assert (Hm : missing_required req = true).
  { unfold missing_required, get.
    destruct H as [H | H]; rewrite H; cbn;
      [reflexivity | apply orb_true_r]. }
  destruct (path_bad_request E req Hm) as (_ & Hc & Hr).
  split; assumption.
Qed.

Lemma empty_date_is_rejected_witness :
  (lookup "dataDisponibilizacaoInicio" (query request_with_empty_end)
     = Some (VStr "") \/
   lookup "dataDisponibilizacaoFim" (query request_with_empty_end)
     = Some (VStr ""))
  /\ responses (events (answering (Fulfilled two_notices))
                  request_with_empty_end) =
       [(400,
         VObj
           [("success", VBool false);
            ("error", VStr "Parâmetros obrigatórios: dataDisponibilizacaoInicio, dataDisponibilizacaoFim");
            ("received_params", VObj (query request_with_empty_end))])]
  /\ upstream_calls (events (answering (Fulfilled two_notices))
                       request_with_empty_end) = [].
Proof.
  split.
  - right. reflexivity.
  - apply (empty_date_is_rejected (answering (Fulfilled two_notices))
             request_with_empty_end).
    right. reflexivity.
Defined.

(** ** Defaults and forwarding *)

(** C5: when the two dates pass validation, the one upstream call goes to the
    fixed endpoint with exactly the five named parameters; each of them that
    is present in the query is forwarded as received, and an absent
    [nomeAdvogado], [itensPorPagina] or [meio] is replaced by
    ['Eduardo Koetz'], ['100'] or ['D']. *)
Theorem defaults_and_forwarding (E : env) (req : request) :
  truthy (get (query req) "dataDisponibilizacaoInicio") = true ->
  truthy (get (query req) "dataDisponibilizacaoFim") = true ->
  exists cfg props,
    upstream_calls (events E req) = [(apiUrl, cfg)] /\
    params cfg = VObj props /\
    map fst props =
      ["nomeAdvogado"; "dataDisponibilizacaoInicio";
       "dataDisponibilizacaoFim"; "itensPorPagina"; "meio"] /\
    (forall k v,
        In k (map fst props) ->
        lookup k (query req) = Some v -> v <> VUndefined ->
        lookup k props = Some v) /\
    (lookup "nomeAdvogado" (query req) = None ->
     lookup "nomeAdvogado" props = Some (VStr "Eduardo Koetz")) /\
    (lookup "itensPorPagina" (query req) = None ->
     lookup "itensPorPagina" props = Some (VStr "100")) /\
    (lookup "meio" (query req) = None ->
     lookup "meio" props = Some (VStr "D")).
Proof.
  intros H1 H2.
  pose proof (one_call_when_valid E req (missing_required_false req H1 H2))
    as Hc.
  eexists. eexists. split; [exact Hc |].
  split; [reflexivity |]. split; [reflexivity |].
  split; [| repeat split; intros Hk; cbn; unfold destructure, get;
            rewrite Hk; reflexivity].
  intros k v Hin Hk Hv. cbn in Hin.
  destruct Hin as [<- | [<- | [<- | [<- | [<- | []]]]]]; cbn;
    unfold destructure, get; rewrite Hk;
    destruct v; try reflexivity; congruence.
Qed.

Lemma defaults_and_forwarding_witness :
  exists cfg props,
    upstream_calls (events (answering (Fulfilled two_notices))
                      dated_request) = [(apiUrl, cfg)] /\
    params cfg = VObj props /\
    lookup "dataDisponibilizacaoInicio" props = Some (VStr "2024-01-01") /\
    lookup "nomeAdvogado" props = Some (VStr "Eduardo Koetz") /\
    lookup "itensPorPagina" props = Some (VStr "100") /\
    lookup "meio" props = Some (VStr "D").
Proof.
  destruct (defaults_and_forwarding (answering (Fulfilled two_notices))
              dated_request eq_refl eq_refl)
    as (cfg & props & Hc & Hp & Hk & Hf & Hn & Hi & Hm).
  exists cfg, props.
  split; [exact Hc |]. split; [exact Hp |].
  split.
  - apply Hf; [rewrite Hk; cbn; tauto | reflexivity | discriminate].
  - repeat split; [apply Hn | apply Hi | apply Hm]; reflexivity.
Defined.

(** ** Upstream failure *)

(** C3: when the upstream call fails, the response carries the status of the
    upstream response if there was one and 500 otherwise, and its body is the
    failure envelope: success flag off, the error message, the upstream
    status line and headers (or the network/timeout marker), and the query
    as received. *)
Theorem upstream_failure_is_relayed (E : env) (req : request)
    (url : string) (cfg : axios_config) (e : error) :
  In (url, cfg) (upstream_calls (events E req)) ->
  upstream E url cfg = Rejected e ->
  exists body,
    responses (events E req) =
      [(match response e with Some r => status r | None => 500 end, body)]
    /\ prop body "success" = VBool false
    /\ prop body "error" = VStr (message e)
    /\ prop (prop body "debug_info") "axios_error" =
         match response e with
         | Some r => VObj [("status", VNum (status r));
                           ("statusText", VStr (statusText r));
                           ("headers", headers r)]
         | None => VStr "Network/timeout error"
         end
    /\ prop (prop body "debug_info") "request_params" = VObj (query req).
Proof.
  intros Hin Hu.
  destruct (call_inversion E req url cfg Hin) as (Hm & -> & ->).
  destruct (path_rejected E req e Hm Hu) as (_ & _ & Hr).
  exists (errorInfo req e (VStr (now E))).
  split; [exact Hr |]. repeat split; reflexivity.
Qed.

Lemma upstream_failure_is_relayed_witness :
  exists body,
    responses (events (answering (Rejected forbidden)) dated_request) =
      [(403, body)]
    /\ prop body "success" = VBool false
    /\ prop body "error" = VStr "Request failed with status code 403"
    /\ prop (prop body "debug_info") "axios_error" =
         VObj [("status", VNum 403);
               ("statusText", VStr "Forbidden");
               ("headers", VObj [])]
    /\ prop (prop body "debug_info") "request_params" = VObj dated_query.
Proof.
  apply (upstream_failure_is_relayed (answering (Rejected forbidden))
           dated_request apiUrl (axios_options dated_request) forbidden).
  - left. reflexivity.
  - reflexivity.
Defined.

(** ** Upstream success *)

(** When upstream answers and the body is neither [null] nor [undefined], the
    handler answers 200 with the envelope: the body as received under
    [api_response], the upstream status under [proxy_info.status_code], and
    the parameters that were sent under [proxy_info.parametros_enviados]. *)
Lemma success_envelope (E : env) (req : request) (url : string)
    (cfg : axios_config) (r : http_response) :
  In (url, cfg) (upstream_calls (events E req)) ->
  upstream E url cfg = Fulfilled r ->
  data r <> VNull ->
  data r <> VUndefined ->
  exists body,
    responses (events E req) = [(200, body)]
    /\ prop body "success" = VBool true
    /\ prop body "api_response" = data r
    /\ prop (prop body "proxy_info") "status_code" = VNum (status r)
    /\ prop (prop body "proxy_info") "parametros_enviados" = params cfg.
Proof.
  intros Hin Hu Hn Hd.
  destruct (call_inversion E req url cfg Hin) as (Hm & -> & ->).
  destruct (path_fulfilled E req r Hm Hu Hn Hd) as (_ & _ & Hr).
  eexists. split; [exact Hr |]. repeat split; reflexivity.
Qed.

(** On that path the two counters fall back to zero when the body has no
    [count] and no [items]. *)
Lemma stats_fall_back_to_zero (E : env) (req : request) (url : string)
    (cfg : axios_config) (r : http_response) :
  In (url, cfg) (upstream_calls (events E req)) ->
  upstream E url cfg = Fulfilled r ->
  data r <> VNull ->
  data r <> VUndefined ->
  exists body,
    responses (events E req) = [(200, body)]
    /\ (prop (data r) "count" = VUndefined ->
        prop (prop body "stats") "total_intimacoes" = VNum 0)
    /\ (prop (data r) "items" = VUndefined ->
        prop (prop body "stats") "total_items" = VNum 0).
Proof.
  intros Hin Hu Hn Hd.
  destruct (call_inversion E req url cfg Hin) as (Hm & -> & ->).
  destruct (path_fulfilled E req r Hm Hu Hn Hd) as (_ & _ & Hr).
  eexists. split; [exact Hr |].
  split; intros H; cbn; rewrite H; reflexivity.
Qed.

(** C4, evaluated where it breaks: upstream answers [200 OK] with the JSON
    document [null]; the one call succeeds, yet the handler answers 500 and
    the body holds neither [api_response] nor [proxy_info]. *)
Theorem null_document_is_not_relayed :
  upstream_calls (events (answering (Fulfilled null_document))
                    dated_request)
    = [(apiUrl, axios_options dated_request)]
  /\ upstream (answering (Fulfilled null_document)) apiUrl
       (axios_options dated_request)
     = Fulfilled null_document
  /\ exists body,
       responses (events (answering (Fulfilled null_document))
                    dated_request) = [(500, body)]
       /\ prop body "success" = VBool false
       /\ prop body "api_response" = VUndefined
       /\ prop body "proxy_info" = VUndefined.
Proof.
  split; [reflexivity |]. split; [reflexivity |].
  eexists. split; [reflexivity |]. repeat split; reflexivity.
Qed.

(** C10, evaluated where it breaks: on the same exchange the upstream status
    is 200 and the body has no [count] and no [items], yet the handler's own
    status is 500, the body has no [stats], and the failure is labelled a
    network/timeout error. *)
Theorem null_document_answers_500 :
  status null_document = 200
  /\ responses (events (answering (Fulfilled null_document)) dated_request)
     = [(500,
         VObj
           [("success", VBool false);
            ("error",
             VStr "Cannot read properties of null (reading 'count')");
            ("timestamp", VStr "2024-01-03T09:00:00.000Z");
            ("debug_info", VObj
               [("service", VStr "Render.com");
                ("axios_error", VStr "Network/timeout error");
                ("request_params", VObj dated_query)])])].
Proof.
  split; reflexivity.
Qed.

(** ** One attempt, one response *)

(** C7: handling one request makes at most one upstream call and sends
    exactly one response, whatever upstream does; the handler itself always
    returns. *)
Theorem one_attempt_one_response (E : env) (req : request) :
  (List.length (upstream_calls (events E req)) <= 1)%nat
  /\ List.length (responses (events E req)) = 1%nat
  /\ fst (run E req) = Normal tt.
Proof.
  split; [| split].
  - destruct (missing_required req) eqn:Hm.
    + rewrite (no_call_when_missing E req Hm). cbn. lia.
    + rewrite (one_call_when_valid E req Hm). cbn. lia.
  - destruct (one_response E req) as (code & body & Hr).
    rewrite Hr. reflexivity.
  - apply handler_returns.
Qed.

(** C8: every upstream call carries [timeout: 30000]; and when that call is
    rejected without a response, as on a timeout, the request ends with a
    500 failure envelope. *)
Theorem upstream_timeout_is_bounded (E : env) (req : request) :
  Forall (fun call => timeout (snd call) = 30000)
    (upstream_calls (events E req))
  /\ (forall url cfg e,
         In (url, cfg) (upstream_calls (events E req)) ->
         upstream E url cfg = Rejected e ->
         response e = None ->
         exists body,
           responses (events E req) = [(500, body)]
           /\ prop body "success" = VBool false
           /\ prop (prop body "debug_info") "axios_error"
              = VStr "Network/timeout error").
Proof.
  split.
  - destruct (missing_required req) eqn:Hm.
    + rewrite (no_call_when_missing E req Hm). constructor.
    + rewrite (one_call_when_valid E req Hm).
      constructor; [reflexivity | constructor].
  - intros url cfg e Hin Hu Hn.
    destruct (call_inversion E req url cfg Hin) as (Hm & -> & ->).
    destruct (path_rejected E req e Hm Hu) as (_ & _ & Hr).
    rewrite Hn in Hr.
    eexists. split; [exact Hr |].
    split; [reflexivity |]. cbn. rewrite Hn. reflexivity.
Qed.

Lemma upstream_timeout_is_bounded_witness :
  map (fun call => timeout (snd call))
    (upstream_calls (events (answering (Rejected timed_out)) dated_request))
    = [30000]
  /\ exists body,
       responses (events (answering (Rejected timed_out)) dated_request)
         = [(500, body)]
       /\ prop body "success" = VBool false
       /\ prop (prop body "debug_info") "axios_error"
          = VStr "Network/timeout error".
Proof.
  destruct (upstream_timeout_is_bounded (answering (Rejected timed_out))
              dated_request) as (_ & Hs).
  split; [reflexivity |].
  apply (Hs apiUrl (axios_options dated_request) timed_out).
  - left. reflexivity.
  - reflexivity.
  - reflexivity.
Defined.

(** * Properties of the notice tables *)

Import Store.

(** ** What the checks of an [INSERT] guarantee *)

Lemma check_not_null_sound (cols : list column) (r : row) (c : column) :
  check_not_null cols r = None ->
  In c cols ->
  is_not_null c = true ->
  field (col_name c) r <> None.
Proof.
  induction cols as [| c0 cols IH]; intros Hchk Hin Hnn; [destruct Hin |].
  cbn in Hchk. destruct Hin as [-> | Hin].
  - rewrite Hnn in Hchk.
    destruct (field (col_name c) r); [discriminate | discriminate Hchk].
  - destruct (is_not_null c0); [| auto].
    destruct (field (col_name c0) r); [auto | discriminate Hchk].
Qed.

Lemma check_unique_sound (d : table_def) (cols : list column) (t : table)
    (r : row) (c : column) (v : datum) :
  check_unique d cols t r = None ->
  In c cols ->
  is_unique d c = true ->
  field (col_name c) r = Some v ->
  taken (col_name c) v t = false.
Proof.
  induction cols as [| c0 cols IH]; intros Hchk Hin Hu Hv; [destruct Hin |].
  cbn in Hchk. destruct Hin as [-> | Hin].
  - rewrite Hu, Hv in Hchk.
    destruct (taken (col_name c) v t); [discriminate Hchk | reflexivity].
  - destruct (is_unique d c0); [| auto].
    destruct (field (col_name c0) r) as [v0 |]; [| auto].
    destruct (taken (col_name c0) v0 t); [discriminate Hchk | auto].
Qed.

Lemma taken_false (name : string) (v : datum) (t : table) :
  taken name v t = false ->
  ~ In (Some v) (column_values name t).
Proof.
  unfold taken, column_values.
  induction t as [| r t IH]; cbn; intros Ht; [tauto |].
  apply orb_false_elim in Ht. destruct Ht as [Hr Ht].
  intros [Heq | Hin]; [| exact (IH Ht Hin)].
  rewrite Heq in Hr.
  destruct (datum_eq_dec v v); [discriminate Hr | congruence].
Qed.

Lemma NoDup_snoc {A} (l : list A) (a : A) :
  NoDup l -> ~ In a l -> NoDup (l ++ [a]).
Proof.
  intros Hl Ha. apply NoDup_app.
  - exact Hl.
  - constructor; [intros [] | constructor].
  - intros x Hx [<- | []]. exact (Ha Hx).
Qed.

(** The value a freshly built row holds in a column is the one computed for
    that column. *)
Lemma build_row_field (s : insert_stmt) (cols : list column) (r : row)
    (c : column) :
  build_row s cols = inr r ->
  NoDup (map col_name cols) ->
  In c cols ->
  column_value s c = inr (field (col_name c) r).
Proof.
  revert r. induction cols as [| c0 cols IH]; intros r Hb Hnd Hin;
    [destruct Hin |].
  cbn in Hb.
  destruct (column_value s c0) as [e | v0] eqn:Hv0; [discriminate Hb |].
  destruct (build_row s cols) as [e | r'] eqn:Hr'; [discriminate Hb |].
  inversion Hb; subst r; clear Hb.
  inversion Hnd as [| n ns Hnot Hnd']; subst.
  unfold field. cbn.
  destruct Hin as [-> | Hin].
  - rewrite String.eqb_refl. exact Hv0.
  - destruct (String.eqb_spec (col_name c) (col_name c0)) as [Heq | Hne].
    + exfalso. apply Hnot. rewrite <- Heq. apply in_map. exact Hin.
    + apply (IH r' eq_refl Hnd' Hin).
Qed.

Lemma coerce_TEXT (name : string) (d d' : datum) :
  coerce name TEXT d = inr d' -> exists s, d' = DText s.
Proof.
  destruct d; cbn; intros H; inversion H. eexists; reflexivity.
Qed.

Lemma column_value_TEXT (s : insert_stmt) (c : column) (d : datum) :
  col_type c = TEXT ->
  column_value s c = inr (Some d) ->
  exists s', d = DText s'.
Proof.
  unfold column_value. intros Hty. rewrite Hty.
  destruct (assoc (col_name c) (values s)) as [[d0 |] |].
  - destruct (coerce (col_name c) TEXT d0) as [e | d1] eqn:Hc;
      intros H; inversion H; subst. eapply coerce_TEXT; eauto.
  - discriminate.
  - destruct (col_default c) as [e |]; [| discriminate].
    destruct (coerce (col_name c) TEXT (eval_default s e)) as [e' | d1]
      eqn:Hc; intros H; inversion H; subst. eapply coerce_TEXT; eauto.
Qed.

(** ** Invariants of a table filled by [INSERT]s *)

Section ColumnInvariants.

Variable d : table_def.
Variable c : column.
Hypothesis c_in_d : In c (columns d).

(** A successful [INSERT] appends one row that passed every check. *)
Lemma insert_inversion (t t' : table) (s : insert_stmt) :
  insert d t s = inr t' ->
  exists r,
    t' = (t ++ [r])%list
    /\ build_row s (columns d) = inr r
    /\ check_not_null (columns d) r = None
    /\ check_unique d (columns d) t r = None.
Proof.
  unfold insert. intros H.
  destruct (check_columns (columns d) (values s)); [discriminate H |].
  destruct (build_row s (columns d)) as [e | r]; [discriminate H |].
  destruct (check_not_null (columns d) r) eqn:Hn; [discriminate H |].
  destruct (check_unique d (columns d) t r) eqn:Hu; [discriminate H |].
  inversion H. exists r. auto.
Qed.

(** An invariant kept by every successful [INSERT] holds after any run. *)
Lemma exec_preserves (P : table -> Prop) :
  (forall t t' s, P t -> insert d t s = inr t' -> P t') ->
  forall stmts t, P t -> P (exec d t stmts).
Proof.
  intros Hstep stmts.
  induction stmts as [| s stmts IH]; intros t Ht; cbn; [exact Ht |].
  destruct (insert d t s) as [e | t'] eqn:Hi.
  - apply IH. exact Ht.
  - apply IH. exact (Hstep t t' s Ht Hi).
Qed.

Lemma not_null_invariant (stmts : list insert_stmt) :
  is_not_null c = true ->
  Forall (fun v => v <> None) (column_values (col_name c) (exec d [] stmts)).
Proof.
  intros Hnn.
  apply (exec_preserves
           (fun t => Forall (fun v => v <> None)
                       (column_values (col_name c) t))); [| constructor].
  intros t t' s Ht Hi.
  destruct (insert_inversion t t' s Hi) as (r & -> & _ & Hn & _).
  unfold column_values in *. rewrite map_app.
  apply Forall_app. split; [exact Ht |].
  constructor; [| constructor].
  exact (check_not_null_sound _ _ _ Hn c_in_d Hnn).
Qed.

Lemma unique_invariant (stmts : list insert_stmt) :
  is_unique d c = true ->
  is_not_null c = true ->
  NoDup (column_values (col_name c) (exec d [] stmts)).
Proof.
  intros Hu Hnn.
  apply (exec_preserves (fun t => NoDup (column_values (col_name c) t)));
    [| constructor].
  intros t t' s Ht Hi.
  destruct (insert_inversion t t' s Hi) as (r & -> & _ & Hn & Hq).
  unfold column_values in *. rewrite map_app. cbn.
  apply NoDup_snoc; [exact Ht |].
  pose proof (check_not_null_sound _ _ _ Hn c_in_d Hnn) as Hv.
  destruct (field (col_name c) r) as [v |] eqn:Hf; [| congruence].
  apply taken_false.
  exact (check_unique_sound d _ t r c v Hq c_in_d Hu Hf).
Qed.

Lemma text_invariant (stmts : list insert_stmt) :
  NoDup (map col_name (columns d)) ->
  col_type c = TEXT ->
  is_not_null c = true ->
  Forall (fun r => exists s, field (col_name c) r = Some (DText s))
    (exec d [] stmts).
Proof.
  intros Hnd Hty Hnn.
  apply (exec_preserves
           (fun t => Forall
                       (fun r => exists s,
                            field (col_name c) r = Some (DText s)) t));
    [| constructor].
  intros t t' s Ht Hi.
  destruct (insert_inversion t t' s Hi) as (r & -> & Hb & Hn & _).
  apply Forall_app. split; [exact Ht |].
  constructor; [| constructor].
  pose proof (check_not_null_sound _ _ _ Hn c_in_d Hnn) as Hv.
  pose proof (build_row_field s _ r c Hb Hnd c_in_d) as Hc.
  destruct (field (col_name c) r) as [v |] eqn:Hf; [| congruence].
  destruct (column_value_TEXT s c v Hty Hc) as (s' & ->).
  exists s'. reflexivity.
Qed.

End ColumnInvariants.

(** ** The two notice tables *)

Lemma column_names_distinct :
  NoDup (map col_name (columns intimacoes_eduardo_koetz))
  /\ NoDup (map col_name (columns intimacoes_djen)).
Proof.
  split; cbn;
    repeat (constructor; [cbn; intuition discriminate |]); constructor.
Qed.

(** C2: in both notice tables, whatever [INSERT]s have run, no two stored
    rows hold the same [id_intimacao], and none holds [NULL] there. *)
Theorem external_id_is_unique (stmts : list insert_stmt) :
  (NoDup (column_values "id_intimacao"
            (exec intimacoes_eduardo_koetz [] stmts))
   /\ Forall (fun v => v <> None)
        (column_values "id_intimacao"
           (exec intimacoes_eduardo_koetz [] stmts)))
  /\ (NoDup (column_values "id_intimacao" (exec intimacoes_djen [] stmts))
      /\ Forall (fun v => v <> None)
           (column_values "id_intimacao" (exec intimacoes_djen [] stmts))).
Proof.
  split; split.
  - apply (unique_invariant intimacoes_eduardo_koetz
             (NOT_NULL (UNIQUE (col "id_intimacao" (VARCHAR 255)))));
      [cbn; tauto | reflexivity | reflexivity].
  - apply (not_null_invariant intimacoes_eduardo_koetz
             (NOT_NULL (UNIQUE (col "id_intimacao" (VARCHAR 255)))));
      [cbn; tauto | reflexivity].
  - apply (unique_invariant intimacoes_djen
             (NOT_NULL (UNIQUE (col "id_intimacao" TEXT))));
      [cbn; tauto | reflexivity | reflexivity].
  - apply (not_null_invariant intimacoes_djen
             (NOT_NULL (UNIQUE (col "id_intimacao" TEXT))));
      [cbn; tauto | reflexivity].
Qed.

(** C6 as stated fails: the table accepts a row whose [conteudo_texto] is the
    empty string, so not every stored row has a non-empty body text. *)
Lemma empty_body_text_is_stored :
  ~ (forall stmts : list insert_stmt,
        Forall
          (fun r => exists s,
               field "conteudo_texto" r = Some (DText s) /\ s <> "")
          (exec intimacoes_eduardo_koetz [] stmts)).
Proof.
  intros H. specialize (H [notice_with_empty_text]).
  cbn in H. inversion H as [| r t (s & Hs & Hne) _]; subst.
  cbn in Hs. inversion Hs. congruence.
Qed.

(** C6, amended: in both notice tables, whatever [INSERT]s have run, every
    stored row holds a text value in [conteudo_texto], never [NULL]; the
    text may be empty. *)
Theorem body_text_is_never_null (stmts : list insert_stmt) :
  Forall (fun r => exists s, field "conteudo_texto" r = Some (DText s))
    (exec intimacoes_eduardo_koetz [] stmts)
  /\ Forall (fun r => exists s, field "conteudo_texto" r = Some (DText s))
       (exec intimacoes_djen [] stmts).
Proof.
  destruct column_names_distinct as [H1 H2].
  split.
  - apply (text_invariant intimacoes_eduardo_koetz
             (NOT_NULL (col "conteudo_texto" TEXT)));
      [cbn; tauto | exact H1 | reflexivity | reflexivity].
  - apply (text_invariant intimacoes_djen
             (NOT_NULL (col "conteudo_texto" TEXT)));
      [cbn; tauto | exact H2 | reflexivity | reflexivity].
Qed.

(** * Properties of the application *)

Import App.

(** ** Traces compose *)

Lemma upstream_calls_app (t1 t2 : list event) :
  upstream_calls (t1 ++ t2) = (upstream_calls t1 ++ upstream_calls t2)%list.
Proof.
  induction t1 as [| ev t1 IH]; [reflexivity |].
  destruct ev; cbn; rewrite ?IH; reflexivity.
Qed.

Lemma responses_app (t1 t2 : list event) :
  responses (t1 ++ t2) = (responses t1 ++ responses t2)%list.
Proof.
  induction t1 as [| ev t1 IH]; [reflexivity |].
  destruct ev; cbn; rewrite ?IH; reflexivity.
Qed.

(** Started after other events, with the status code still at its default,
    the handler appends to the trace exactly what it produces on its own. *)
Lemma handler_frame (E : env) (req : request) (w : world) :
  statusCode w = 200 ->
  trace (snd (djen_handler E req w)) = (trace w ++ events E req)%list.
Proof.
  destruct w as [sc tr]. cbn. intros ->.
  unfold events, run, djen_handler, try_catch, try_block, catch_block,
    bind, console_log, console_error, res_status, res_json, axios_get,
    new_Date_toISOString, ret, lift, throw, emit, initial_world.
  cbn -[member].
  destruct (missing_required req); cbn -[member].
  - rewrite <- !app_assoc. reflexivity.
  - destruct (upstream E apiUrl (axios_options req)) as [r | e];
      cbn -[member].
    + destruct (member (data r) "count") as [e | c]; cbn -[member].
      * rewrite <- !app_assoc. reflexivity.
      * destruct (member (data r) "items") as [e | items]; cbn -[member].
        -- rewrite <- !app_assoc. reflexivity.
        -- destruct (truthy items); cbn -[member].
           ++ destruct (member items "length") as [e | n]; cbn;
                rewrite <- !app_assoc; reflexivity.
           ++ rewrite <- !app_assoc. reflexivity.
    + rewrite <- !app_assoc. reflexivity.
Qed.

(** The handler's counts on their own: one response, at most one call. *)
Lemma one_attempt_one_response_helper (E : env) (req : request) :
  List.length (responses (events E req)) = 1%nat
  /\ (List.length (upstream_calls (events E req)) <= 1)%nat.
Proof.
  split.
  - destruct (one_response E req) as (code & body & Hr).
    rewrite Hr. reflexivity.
  - destruct (missing_required req) eqn:Hm.
    + rewrite (no_call_when_missing E req Hm). cbn. lia.
    + rewrite (one_call_when_valid E req Hm). cbn. lia.
Qed.

(** ** Dispatch *)

Lemma pass_through_passes (req : app_request) : passes pass_through req.
Proof.
  intros w. reflexivity.
Qed.

(** Past the two library middlewares, a request is logged and routed. *)
Lemma app_after_parsers (cors express_json : middleware) (H : host)
    (req : app_request) :
  passes cors req ->
  passes express_json req ->
  app cors express_json H req initial_world =
    router H req
      (emit
         (ConsoleLog
            [VStr (iso_time H 0 ++ " - " ++ method_name (req_method req)
                     ++ " " ++ req_path req ++ " - IP: " ++ req_ip req)])
         initial_world).
Proof.
  intros Hc Hj. unfold app, chain, bind.
  rewrite Hc, Hj. reflexivity.
Qed.

(** A path served by [/djen] is served by neither [/] nor [/health]. *)
Lemma djen_route_exclusive (req : app_request) :
  get_route "/djen" req = true ->
  get_route "/" req = false /\ get_route "/health" req = false.
Proof.
  unfold get_route, path_matches. intros H.
  apply andb_prop in H. destruct H as [Hm Hp].
  apply String.eqb_eq in Hp. rewrite Hm, Hp. split; reflexivity.
Qed.

(** A request that no route serves falls through to the catch-all. *)
Lemma not_found_dispatch (cors express_json : middleware)
    (H : host) (req : app_request) :
  passes cors req ->
  passes express_json req ->
  get_route "/" req = false ->
  get_route "/health" req = false ->
  get_route "/djen" req = false ->
  responses (serve cors express_json H req) =
    [(404,
      VObj
        [("error", VStr "Endpoint não encontrado");
         ("available_endpoints",
          VArr [VStr "/"; VStr "/health"; VStr "/djen"]);
         ("requested", VStr (req_originalUrl req))])]
  /\ upstream_calls (serve cors express_json H req) = [].
Proof.
  intros Hc Hj H1 H2 H3. unfold serve.
  rewrite (app_after_parsers cors express_json H req Hc Hj).
  unfold router. rewrite H1, H2, H3. split; reflexivity.
Qed.

(** X1: a request that no route serves is answered 404 with the list of
    endpoints and the requested URL, and nothing is sent upstream. *)
Theorem unrouted_request_is_404 (cors express_json : middleware)
    (H : host) (req : app_request) :
  passes cors req ->
  passes express_json req ->
  get_route "/" req = false ->
  get_route "/health" req = false ->
  get_route "/djen" req = false ->
  responses (serve cors express_json H req) =
    [(404,
      VObj
        [("error", VStr "Endpoint não encontrado");
         ("available_endpoints",
          VArr [VStr "/"; VStr "/health"; VStr "/djen"]);
         ("requested", VStr (req_originalUrl req))])]
  /\ upstream_calls (serve cors express_json H req) = [].
Proof.
  exact (not_found_dispatch cors express_json H req).
Qed.

Lemma unrouted_request_is_404_witness :
  responses (serve pass_through pass_through
               (quiet_host (Fulfilled two_notices))
               (get_request "/intimacoes" dated_query)) =
    [(404,
      VObj
        [("error", VStr "Endpoint não encontrado");
         ("available_endpoints",
          VArr [VStr "/"; VStr "/health"; VStr "/djen"]);
         ("requested", VStr "/intimacoes")])]
  /\ upstream_calls (serve pass_through pass_through
                       (quiet_host (Fulfilled two_notices))
                       (get_request "/intimacoes" dated_query)) = [].
Proof.
  apply (unrouted_request_is_404 pass_through pass_through
           (quiet_host (Fulfilled two_notices))
           (get_request "/intimacoes" dated_query)).
  - apply pass_through_passes.
  - apply pass_through_passes.
  - reflexivity.
  - reflexivity.
  - reflexivity.
Defined.



(** X3: the service-info and health routes answer 200 from the process
    alone: the info body names the service and its endpoints, the health
    body carries the process uptime, and neither sends anything upstream,
    whatever the query holds. *)
Theorem info_routes_are_local (cors express_json : middleware)
    (H : host) (req : app_request) :
  passes cors req ->
  passes express_json req ->
  (get_route "/" req = true ->
   responses (serve cors express_json H req) =
     [(200,
       VObj
         [("service", VStr "ADVBOX DJEN Proxy");
          ("status", VStr "online");
          ("timestamp", VStr (iso_time H 1));
          ("version", VStr "1.0.0");
          ("description",
           VStr "Proxy service to bypass CloudFront restrictions for DJEN API");
          ("endpoints", VObj
             [("/djen", VStr "GET - Proxy para API DJEN");
              ("/health", VStr "GET - Health check")])])]
   /\ upstream_calls (serve cors express_json H req) = [])
  /\ (get_route "/health" req = true ->
      responses (serve cors express_json H req) =
        [(200,
          VObj
            [("status", VStr "healthy");
             ("timestamp", VStr (iso_time H 1));
             ("uptime", uptime H)])]
      /\ upstream_calls (serve cors express_json H req) = []).
Proof.
  intros Hc Hj. unfold serve.
  rewrite (app_after_parsers cors express_json H req Hc Hj).
  unfold router. split; intros Hr.
  - rewrite Hr. split; reflexivity.
  - destruct (get_route "/" req) eqn:H0.
    + exfalso. unfold get_route, path_matches in *.
      apply andb_prop in H0. destruct H0 as [_ H0].
      apply andb_prop in Hr. destruct Hr as [_ Hr].
      apply String.eqb_eq in H0. rewrite H0 in Hr. discriminate Hr.
    + rewrite Hr. split; reflexivity.
Qed.

Lemma info_routes_are_local_witness :
  responses (serve pass_through pass_through
               (quiet_host (Rejected timed_out))
               (get_request "/health" dated_query)) =
    [(200,
      VObj
        [("status", VStr "healthy");
         ("timestamp", VStr "2024-01-03T09:00:00.004Z");
         ("uptime", VNum 42)])]
  /\ upstream_calls (serve pass_through pass_through
                       (quiet_host (Rejected timed_out))
                       (get_request "/health" dated_query)) = [].
Proof.
  apply (info_routes_are_local pass_through pass_through
           (quiet_host (Rejected timed_out))
           (get_request "/health" dated_query)).
  - apply pass_through_passes.
  - apply pass_through_passes.
  - reflexivity.
Defined.

(** A request served by [/djen] reaches the handler after the access log. *)
Lemma djen_dispatch (cors express_json : middleware)
    (H : host) (req : app_request) :
  passes cors req ->
  passes express_json req ->
  get_route "/djen" req = true ->
  responses (serve cors express_json H req) =
    responses (events (handler_env H) {| query := req_query req |})
  /\ upstream_calls (serve cors express_json H req) =
       upstream_calls (events (handler_env H) {| query := req_query req |}).
Proof.
  intros Hc Hj Hd.
  destruct (djen_route_exclusive req Hd) as [H0 H1]. unfold serve.
  rewrite (app_after_parsers cors express_json H req Hc Hj).
  unfold router. rewrite H0, H1, Hd.
  rewrite handler_frame by reflexivity. cbn [emit trace initial_world].
  rewrite responses_app, upstream_calls_app. split; reflexivity.
Qed.

(** X4: through the application, a request served by [/djen] produces the
    responses and the upstream calls of the handler run on its query. *)
Theorem app_relays_handler (cors express_json : middleware)
    (H : host) (req : app_request) :
  passes cors req ->
  passes express_json req ->
  get_route "/djen" req = true ->
  responses (serve cors express_json H req) =
    responses (events (handler_env H) {| query := req_query req |})
  /\ upstream_calls (serve cors express_json H req) =
       upstream_calls (events (handler_env H) {| query := req_query req |}).
Proof.
  exact (djen_dispatch cors express_json H req).
Qed.

Lemma app_relays_handler_witness :
  responses (serve pass_through pass_through
               (quiet_host (Rejected forbidden))
               (get_request "/DJEN/" dated_query)) =
    responses (events (handler_env (quiet_host (Rejected forbidden)))
                 {| query := dated_query |})
  /\ upstream_calls (serve pass_through pass_through
                       (quiet_host (Rejected forbidden))
                       (get_request "/DJEN/" dated_query)) =
       upstream_calls (events (handler_env (quiet_host (Rejected forbidden)))
                         {| query := dated_query |}).
Proof.
  apply (app_relays_handler pass_through pass_through
           (quiet_host (Rejected forbidden))
           (get_request "/DJEN/" dated_query)).
  - apply pass_through_passes.
  - apply pass_through_passes.
  - reflexivity.
Defined.

(** X5: whatever the request, an upstream call found in the trace was made
    for a [GET] or [HEAD] on the [/djen] path whose two dates are present,
    and it goes to the fixed endpoint with the options built from the
    request's query. *)
Theorem only_djen_reaches_upstream (cors express_json : middleware)
    (H : host) (req : app_request) (url : string) (cfg : axios_config) :
  passes cors req ->
  passes express_json req ->
  In (url, cfg) (upstream_calls (serve cors express_json H req)) ->
  handles_get (req_method req) = true
  /\ path_matches "/djen" (req_path req) = true
  /\ missing_required {| query := req_query req |} = false
  /\ url = apiUrl
  /\ cfg = axios_options {| query := req_query req |}.
Proof.
  intros Hc Hj Hin.
  destruct (get_route "/djen" req) eqn:Hd.
  - destruct (djen_dispatch cors express_json H req Hc Hj Hd)
      as [_ Hu].
    rewrite Hu in Hin.
    destruct (call_inversion _ _ _ _ Hin) as (Hm & -> & ->).
    unfold get_route in Hd. apply andb_prop in Hd. tauto.
  - exfalso. revert Hin. unfold serve.
    rewrite (app_after_parsers cors express_json H req Hc Hj).
    unfold router. rewrite Hd.
    destruct (get_route "/" req); [cbn; tauto |].
    destruct (get_route "/health" req); cbn; tauto.
Qed.

Lemma only_djen_reaches_upstream_witness :
  handles_get GET = true
  /\ path_matches "/djen" "/djen" = true
  /\ missing_required {| query := dated_query |} = false
  /\ apiUrl = apiUrl
  /\ axios_options dated_request = axios_options {| query := dated_query |}.
Proof.
  apply (only_djen_reaches_upstream pass_through pass_through
           (quiet_host (Fulfilled two_notices))
           (get_request "/djen" dated_query)
           apiUrl (axios_options dated_request)).
  - apply pass_through_passes.
  - apply pass_through_passes.
  - left. reflexivity.
Defined.

(** X6: every request that gets past the library middlewares is first
    written to the access log, with the time, method, path and client
    address, and is then answered exactly once, after at most one upstream
    call. *)
Theorem request_logged_then_answered_once (cors express_json : middleware)
    (H : host) (req : app_request) :
  passes cors req ->
  passes express_json req ->
  (exists rest,
      serve cors express_json H req =
        ConsoleLog
          [VStr (iso_time H 0 ++ " - " ++ method_name (req_method req)
                   ++ " " ++ req_path req ++ " - IP: " ++ req_ip req)]
          :: rest)
  /\ List.length (responses (serve cors express_json H req)) = 1%nat
  /\ (List.length (upstream_calls (serve cors express_json H req)) <= 1)%nat.
Proof.
  intros Hc Hj.
  destruct (get_route "/djen" req) eqn:Hd.
  - destruct (djen_dispatch cors express_json H req Hc Hj Hd)
      as [Hr Hu].
    rewrite Hr, Hu.
    destruct (one_attempt_one_response_helper (handler_env H)
                {| query := req_query req |}) as (Hone & Hle).
    split; [| split; assumption].
    destruct (djen_route_exclusive req Hd) as [H0 H1]. unfold serve.
    rewrite (app_after_parsers cors express_json H req Hc Hj).
    unfold router. rewrite H0, H1, Hd.
    rewrite handler_frame by reflexivity. cbn. eexists. reflexivity.
  - unfold serve.
    rewrite (app_after_parsers cors express_json H req Hc Hj).
    unfold router. rewrite Hd.
    destruct (get_route "/" req);
      [| destruct (get_route "/health" req)];
      cbn; (split; [eexists; reflexivity | split; [reflexivity | lia]]).
Qed.

Lemma request_logged_then_answered_once_witness :
  (exists rest,
      serve pass_through pass_through (quiet_host (Rejected timed_out))
        (get_request "/djen" dated_query) =
        ConsoleLog
          [VStr "2024-01-03T09:00:00.000Z - GET /djen - IP: 203.0.113.7"]
          :: rest)
  /\ List.length
       (responses (serve pass_through pass_through
                     (quiet_host (Rejected timed_out))
                     (get_request "/djen" dated_query))) = 1%nat
  /\ (List.length
        (upstream_calls (serve pass_through pass_through
                           (quiet_host (Rejected timed_out))
                           (get_request "/djen" dated_query))) <= 1)%nat.
Proof.
  apply (request_logged_then_answered_once pass_through pass_through
           (quiet_host (Rejected timed_out))
           (get_request "/djen" dated_query)).
  - apply pass_through_passes.
  - apply pass_through_passes.
Defined.

(** * Further properties of the tables *)

Import Logs.

(** ** Values, collisions and errors *)

Lemma In_present (v : datum) (vs : list (option datum)) :
  In v (present vs) <-> In (Some v) vs.
Proof.
  induction vs as [| [v' |] vs IH]; cbn; [tauto | | ].
  - rewrite IH. split; intros [Heq | Hin]; auto.
    + left. congruence.
    + left. congruence.
  - rewrite IH. split; [auto |]. intros [Heq | Hin]; [discriminate | auto].
Qed.

Lemma present_app (l1 l2 : list (option datum)) :
  present (l1 ++ l2) = (present l1 ++ present l2)%list.
Proof.
  induction l1 as [| [v |] l1 IH]; cbn; rewrite ?IH; reflexivity.
Qed.

Lemma taken_true (name : string) (v : datum) (t : table) :
  In (Some v) (column_values name t) ->
  taken name v t = true.
Proof.
  unfold taken, column_values.
  induction t as [| r t IH]; cbn; [tauto |].
  intros [Heq | Hin].
  - rewrite Heq. destruct (datum_eq_dec v v); [reflexivity | congruence].
  - rewrite (IH Hin). apply orb_true_r.
Qed.




(** Which stage of an [INSERT] raises which error. *)
Lemma check_columns_error (cols : list column)
    (vs : list (string * option datum)) (e : sql_error) :
  check_columns cols vs = Some e -> exists k, e = undefined_column k.
Proof.
  induction vs as [| [k v] vs IH]; cbn; [discriminate |].
  destruct (existsb (fun c => (col_name c =? k)%string) cols);
    [exact IH |].
  intros H. inversion H. eexists; reflexivity.
Qed.

Lemma coerce_error (name : string) (ty : sqltype) (v : datum)
    (e : sql_error) (n : string) :
  coerce name ty v = inl e -> e <> unique_violation n.
Proof.
  destruct ty, v; cbn; intros H; inversion H; try discriminate.
  - destruct (String.length s <=? n0)%nat; [discriminate |].
    destruct (all_spaces (substring n0 (String.length s - n0) s));
      [discriminate |].
    inversion H. discriminate.
  - match type of H with
    | (if ?b then _ else _) = _ => destruct b
    end; [discriminate |].
    inversion H. discriminate.
Qed.

Lemma column_value_error (s : insert_stmt) (c : column) (e : sql_error)
    (n : string) :
  column_value s c = inl e -> e <> unique_violation n.
Proof.
  unfold column_value.
  destruct (assoc (col_name c) (values s)) as [[d0 |] |].
  - destruct (coerce (col_name c) (col_type c) d0) as [e' | d1] eqn:Hc;
      intros H; inversion H; subst. eapply coerce_error; eauto.
  - discriminate.
  - destruct (col_default c) as [e0 |]; [| discriminate].
    destruct (coerce (col_name c) (col_type c)
                (eval_default s e0)) as [e' | d1] eqn:Hc;
      intros H; inversion H; subst. eapply coerce_error; eauto.
Qed.

Lemma build_row_error (s : insert_stmt) (cols : list column)
    (e : sql_error) (n : string) :
  build_row s cols = inl e -> e <> unique_violation n.
Proof.
  induction cols as [| c cols IH]; cbn; [discriminate |].
  destruct (column_value s c) as [e' | v] eqn:Hv.
  - intros H. inversion H; subst. eapply column_value_error; eauto.
  - destruct (build_row s cols) as [e' | r]; [| discriminate].
    intros H. inversion H; subst. apply IH. reflexivity.
Qed.

Lemma check_not_null_error (cols : list column) (r : row) (e : sql_error) :
  check_not_null cols r = Some e -> exists k, e = not_null_violation k.
Proof.
  induction cols as [| c cols IH]; cbn; [discriminate |].
  destruct (is_not_null c); [| exact IH].
  destruct (field (col_name c) r); [exact IH |].
  intros H. inversion H. eexists; reflexivity.
Qed.

Lemma check_unique_error (d : table_def) (cols : list column) (t : table)
    (r : row) (e : sql_error) :
  check_unique d cols t r = Some e ->
  exists c v,
    In c cols /\ is_unique d c = true /\ e = unique_violation (col_name c)
    /\ field (col_name c) r = Some v /\ taken (col_name c) v t = true.
Proof.
  induction cols as [| c cols IH]; cbn; [discriminate |].
  intros H.
  assert (Hrest : check_unique d cols t r = Some e ->
                  exists c0 v,
                    (c = c0 \/ In c0 cols) /\ is_unique d c0 = true
                    /\ e = unique_violation (col_name c0)
                    /\ field (col_name c0) r = Some v
                    /\ taken (col_name c0) v t = true).
  { intros H'. destruct (IH H') as (c0 & v & Hin & Hrest).
    exists c0, v. split; [right; exact Hin | exact Hrest]. }
  destruct (is_unique d c) eqn:Hu; [| auto].
  destruct (field (col_name c) r) as [v |] eqn:Hf; [| auto].
  destruct (taken (col_name c) v t) eqn:Ht; [| auto].
  inversion H; subst. exists c, v. auto.
Qed.

Lemma table_columns_distinct (d : table_def) :
  In d tables -> NoDup (map col_name (columns d)).
Proof.
  intros [<- | [<- | [<- | [<- | []]]]]; cbn;
    repeat (constructor; [cbn; intuition discriminate |]); constructor.
Qed.

(** A column under a uniqueness constraint never holds the same non-NULL
    value twice. *)
Lemma unique_present_invariant (d : table_def) (c : column)
    (stmts : list insert_stmt) :
  In c (columns d) ->
  is_unique d c = true ->
  NoDup (present (column_values (col_name c) (exec d [] stmts))).
Proof.
  intros Hin Hu.
  apply (exec_preserves d
           (fun t => NoDup (present (column_values (col_name c) t))));
    [| constructor].
  intros t t' s Ht Hi.
  destruct (insert_inversion d t t' s Hi) as (r & -> & _ & _ & Hq).
  unfold column_values in *. rewrite map_app, present_app. cbn.
  destruct (field (col_name c) r) as [v |] eqn:Hf.
  - apply NoDup_snoc; [exact Ht |].
    rewrite In_present. apply taken_false.
    exact (check_unique_sound d _ t r c v Hq Hin Hu Hf).
  - cbn. rewrite app_nil_r. exact Ht.
Qed.


(** ** Keys *)

(** X7: in each of the four tables, whatever [INSERT]s have run, the
    primary key [id] is never [NULL] and never repeated, whether it was
    given or generated. *)
Theorem primary_keys_are_unique (d : table_def)
    (stmts : list insert_stmt) :
  In d tables ->
  NoDup (column_values "id" (exec d [] stmts))
  /\ Forall (fun v => v <> None) (column_values "id" (exec d [] stmts)).
Proof.
  intros Hd.
  assert (Hc : In (PRIMARY_KEY (DEFAULT gen_random_uuid (col "id" UUID)))
                 (columns d)).
  { destruct Hd as [<- | [<- | [<- | [<- | []]]]]; left; reflexivity. }
  split.
  - exact (unique_invariant d _ Hc stmts eq_refl eq_refl).
  - exact (not_null_invariant d _ Hc stmts eq_refl).
Qed.

Lemma primary_keys_are_unique_witness :
  NoDup (column_values "id"
           (exec logs_extracao_djen []
              [seed_stmt "u1" 1; seed_stmt "u1" 2; seed_stmt "u2" 3]))
  /\ Forall (fun v => v <> None)
       (column_values "id"
          (exec logs_extracao_djen []
             [seed_stmt "u1" 1; seed_stmt "u1" 2; seed_stmt "u2" 3])).
Proof.
  apply (primary_keys_are_unique logs_extracao_djen).
  right. right. left. reflexivity.
Defined.

(** X8: in the table of [create_tables.sql], whatever [INSERT]s have run,
    the [hash_conteudo] values that are not [NULL] are pairwise
    distinct. *)
Theorem content_hash_unique_when_present (stmts : list insert_stmt) :
  NoDup (present (column_values "hash_conteudo"
                    (exec intimacoes_eduardo_koetz [] stmts))).
Proof.
  apply (unique_present_invariant intimacoes_eduardo_koetz
           (UNIQUE (col "hash_conteudo" (VARCHAR 255)))).
  - cbn. tauto.
  - reflexivity.
Qed.

Lemma insert_unique_violation (d : table_def) (t : table)
    (s : insert_stmt) (n : string) :
  insert d t s = inl (unique_violation n) ->
  exists c v,
    In c (columns d) /\ is_unique d c = true /\ col_name c = n
    /\ taken n v t = true.
Proof.
  unfold insert. intros H.
  destruct (check_columns (columns d) (values s)) as [e |] eqn:Hc.
  { destruct (check_columns_error _ _ _ Hc) as (k & ->). discriminate H. }
  destruct (build_row s (columns d)) as [e | r] eqn:Hb.
  { inversion H; subst. exfalso. exact (build_row_error _ _ _ n Hb eq_refl). }
  destruct (check_not_null (columns d) r) as [e |] eqn:Hn.
  { destruct (check_not_null_error _ _ _ Hn) as (k & ->). discriminate H. }
  destruct (check_unique d (columns d) t r) as [e |] eqn:Hq;
    [| discriminate H].
  inversion H; subst.
  destruct (check_unique_error d _ t r _ Hq)
    as (c & v & Hin & Hu & He & Hf & Ht).
  injection He as ->. exists c, v. auto.
Qed.

(** X9: the table documented in [SETUP_SUPABASE.md] never rejects a row
    over [hash_conteudo], equal hashes included; the table of
    [create_tables.sql] does so only when a stored row already holds that
    hash. *)
Theorem hash_collisions (t : table) (s : insert_stmt) :
  insert intimacoes_djen t s <> inl (unique_violation "hash_conteudo")
  /\ (insert intimacoes_eduardo_koetz t s
        = inl (unique_violation "hash_conteudo") ->
      exists v, In (Some v) (column_values "hash_conteudo" t)).
Proof.
  split.
  - intros H.
    destruct (insert_unique_violation _ _ _ _ H)
      as (c & v & Hin & Hu & Hn & _).
    cbn in Hin.
    repeat (destruct Hin as [<- | Hin]; [discriminate |]).
    destruct Hin.
  - intros H.
    destruct (insert_unique_violation _ _ _ _ H)
      as (c & v & _ & _ & _ & Ht).
    exists v. unfold taken in Ht.
    apply existsb_exists in Ht. destruct Ht as (r & Hr & Hv).
    unfold column_values. apply in_map_iff. exists r. split; [| exact Hr].
    destruct (field "hash_conteudo" r) as [v' |]; [| discriminate Hv].
    destruct (datum_eq_dec v' v); [congruence | discriminate Hv].
Qed.

Lemma hash_collisions_witness :
  exists v,
    In (Some v)
      (column_values "hash_conteudo"
         (exec intimacoes_eduardo_koetz [] [notice "1" (Some "h") "a"])).
Proof.
  apply (hash_collisions
           (exec intimacoes_eduardo_koetz [] [notice "1" (Some "h") "a"])
           (notice "2" (Some "h") "b")).
  reflexivity.
Defined.

(** ** Re-ingestion and append-only storage *)

Lemma insert_rejects_stored_key (d : table_def) (c : column) (t : table)
    (s : insert_stmt) (v : datum) :
  NoDup (map col_name (columns d)) ->
  In c (columns d) ->
  is_unique d c = true ->
  column_value s c = inr (Some v) ->
  In (Some v) (column_values (col_name c) t) ->
  exists e, insert d t s = inl e.
Proof.
  intros Hnd Hin Hu Hv Hstored. unfold insert.
  destruct (check_columns (columns d) (values s)) as [e |];
    [eexists; reflexivity |].
  destruct (build_row s (columns d)) as [e | r] eqn:Hb;
    [eexists; reflexivity |].
  destruct (check_not_null (columns d) r) as [e |];
    [eexists; reflexivity |].
  destruct (check_unique d (columns d) t r) as [e |] eqn:Hq;
    [eexists; reflexivity |].
  exfalso.
  pose proof (build_row_field s _ r c Hb Hnd Hin) as Hc.
  rewrite Hv in Hc. injection Hc as Hf. symmetry in Hf.
  pose proof (check_unique_sound d _ t r c v Hq Hin Hu Hf) as Hfree.
  rewrite (taken_true _ _ _ Hstored) in Hfree. discriminate Hfree.
Qed.

(** X10: once a notice with a given [id_intimacao] is stored, an [INSERT]
    carrying the same [id_intimacao] is rejected and leaves the table as it
    was, in both notice tables (for the [VARCHAR(255)] column, when the
    identifier fits the column). *)
Theorem reingestion_is_rejected (t : table) (s : insert_stmt)
    (x : string) :
  assoc "id_intimacao" (values s) = Some (Some (DText x)) ->
  In (Some (DText x)) (column_values "id_intimacao" t) ->
  ((String.length x <= 255)%nat ->
   (exists e, insert intimacoes_eduardo_koetz t s = inl e)
   /\ exec intimacoes_eduardo_koetz t [s] = t)
  /\ ((exists e, insert intimacoes_djen t s = inl e)
      /\ exec intimacoes_djen t [s] = t).
Proof.
  intros Hs Hstored. split.
  - intros Hlen.
    assert (He : exists e, insert intimacoes_eduardo_koetz t s = inl e).
    { apply (insert_rejects_stored_key intimacoes_eduardo_koetz
               (NOT_NULL (UNIQUE (col "id_intimacao" (VARCHAR 255))))
               t s (DText x)).
      - apply table_columns_distinct. left. reflexivity.
      - cbn. tauto.
      - reflexivity.
      - unfold column_value. cbn. rewrite Hs. cbn.
        apply Nat.leb_le in Hlen. rewrite Hlen. reflexivity.
      - exact Hstored. }
    split; [exact He |]. destruct He as (e & He). cbn. rewrite He.
    reflexivity.
  - assert (He : exists e, insert intimacoes_djen t s = inl e).
    { apply (insert_rejects_stored_key intimacoes_djen
               (NOT_NULL (UNIQUE (col "id_intimacao" TEXT)))
               t s (DText x)).
      - apply table_columns_distinct. right. left. reflexivity.
      - cbn. tauto.
      - reflexivity.
      - unfold column_value. cbn. rewrite Hs. reflexivity.
      - exact Hstored. }
    split; [exact He |]. destruct He as (e & He). cbn. rewrite He.
    reflexivity.
Qed.

Lemma reingestion_is_rejected_witness :
  exec intimacoes_eduardo_koetz
    (exec intimacoes_eduardo_koetz [] [notice "12345" None "a"])
    [notice "12345" (Some "h") "b"]
  = exec intimacoes_eduardo_koetz [] [notice "12345" None "a"].
Proof.
  destruct (reingestion_is_rejected
              (exec intimacoes_eduardo_koetz [] [notice "12345" None "a"])
              (notice "12345" (Some "h") "b") "12345")
    as [Hvarchar _].
  - reflexivity.
  - left. reflexivity.
  - apply Hvarchar. cbn. lia.
Defined.


(** ** Defaults and types *)

(** X12: a row accepted by the table of [create_tables.sql] has the
    generated uuid in [id], the current time in [data_extracao] and
    ['extraido'] in [status_processamento] wherever the statement leaves
    that column out, and [NULL] in every left-out column that has no
    default. *)
Theorem defaults_fill_omitted_columns (t t' : table) (s : insert_stmt) :
  insert intimacoes_eduardo_koetz t s = inr t' ->
  exists r,
    t' = (t ++ [r])%list
    /\ (assoc "id" (values s) = None ->
        field "id" r = Some (DUuid (fresh_uuid s)))
    /\ (assoc "data_extracao" (values s) = None ->
        field "data_extracao" r = Some (DTime (Store.clock s)))
    /\ (assoc "status_processamento" (values s) = None ->
        field "status_processamento" r = Some (DText "extraido"))
    /\ (forall c,
           In c (columns intimacoes_eduardo_koetz) ->
           col_default c = None ->
           assoc (col_name c) (values s) = None ->
           field (col_name c) r = None).
Proof.
  intros Hi.
  destruct (insert_inversion _ t t' s Hi) as (r & -> & Hb & _).
  exists r. split; [reflexivity |].
  assert (Hnd : NoDup (map col_name (columns intimacoes_eduardo_koetz))).
  { apply table_columns_distinct. left. reflexivity. }
  assert (Hf : forall c, In c (columns intimacoes_eduardo_koetz) ->
                         column_value s c = inr (field (col_name c) r)).
  { intros c Hin. exact (build_row_field s _ r c Hb Hnd Hin). }
  repeat split.
  - intros Hs.
    specialize (Hf (PRIMARY_KEY (DEFAULT gen_random_uuid (col "id" UUID)))).
    unfold column_value in Hf. cbn in Hf. rewrite Hs in Hf. cbn in Hf.
    symmetry. injection (Hf ltac:(tauto)) as Hr. exact Hr.
  - intros Hs.
    specialize (Hf (DEFAULT NOW (col "data_extracao" TIMESTAMP))).
    unfold column_value in Hf. cbn in Hf. rewrite Hs in Hf. cbn in Hf.
    symmetry. injection (Hf ltac:(tauto)) as Hr. exact Hr.
  - intros Hs.
    specialize (Hf (DEFAULT (Literal (DText "extraido"))
                      (col "status_processamento" (VARCHAR 50)))).
    unfold column_value in Hf. cbn in Hf. rewrite Hs in Hf. cbn in Hf.
    symmetry. injection (Hf ltac:(tauto)) as Hr. exact Hr.
  - intros c Hin Hd Hs. specialize (Hf c Hin).
    unfold column_value in Hf. rewrite Hs, Hd in Hf.
    symmetry. injection Hf as Hr. exact Hr.
Qed.

Lemma defaults_fill_omitted_columns_witness :
  exists r,
    exec intimacoes_eduardo_koetz [] [notice "12345" None "a"] = [r]
    /\ field "id" r = Some (DUuid "a")
    /\ field "status_processamento" r = Some (DText "extraido")
    /\ field "tribunal" r = None.
Proof.
  destruct (defaults_fill_omitted_columns []
              (exec intimacoes_eduardo_koetz [] [notice "12345" None "a"])
              (notice "12345" None "a") eq_refl)
    as (r & Hr & Hid & _ & Hst & Hnull).
  exists r. split; [exact Hr |].
  split; [apply Hid; reflexivity |].
  split; [apply Hst; reflexivity |].
  apply (Hnull (col "tribunal" (VARCHAR 100)));
    [cbn; tauto | reflexivity | reflexivity].
Defined.



(** ** The seed row *)

Lemma seed_insert (t : table) (uuid : string) (clk : Z) :
  insert_on_conflict_do_nothing logs_extracao_djen t (seed_stmt uuid clk) =
    if taken "id" (DUuid uuid) t then inr t
    else inr (t ++ [seed_row uuid clk])%list.
Proof.
  unfold insert_on_conflict_do_nothing, insert. cbn.
  destruct (taken "id" (DUuid uuid) t); reflexivity.
Qed.

Lemma seed_uuid_free (done : list (string * Z)) (uuid : string) :
  ~ In uuid (map fst done) ->
  taken "id" (DUuid uuid)
    (map (fun run => seed_row (fst run) (snd run)) done) = false.
Proof.
  unfold taken.
  induction done as [| [u c] done IH]; cbn -[datum_eq_dec]; intros Hn;
    [reflexivity |].
  rewrite IH by tauto.
  destruct (datum_eq_dec (DUuid u) (DUuid uuid)) as [Heq | Hne];
    [| reflexivity].
  exfalso. apply Hn. left. congruence.
Qed.

Lemma run_seed_from (done runs : list (string * Z)) :
  NoDup (map fst (done ++ runs)) ->
  run_seed (map (fun run => seed_row (fst run) (snd run)) done) runs =
    map (fun run => seed_row (fst run) (snd run)) (done ++ runs).
Proof.
  revert done. induction runs as [| [u c] runs IH]; intros done Hnd.
  - rewrite app_nil_r. reflexivity.
  - cbn [run_seed]. rewrite seed_insert.
    rewrite seed_uuid_free.
    + replace (done ++ (u, c) :: runs)%list
        with ((done ++ [(u, c)]) ++ runs)%list
        by (rewrite <- app_assoc; reflexivity).
      rewrite <- IH.
      * rewrite map_app. reflexivity.
      * rewrite <- app_assoc. exact Hnd.
    + rewrite map_app in Hnd. cbn in Hnd.
      apply NoDup_remove_2 in Hnd. intros Hin. apply Hnd.
      apply in_or_app. left. exact Hin.
Qed.

(** X14: the [ON CONFLICT DO NOTHING] of the seed [INSERT] does not keep the
    seed row single: every execution that draws a new uuid appends one more
    seed row, so that running it with pairwise distinct uuids leaves as
    many seed rows as there were executions. *)
Theorem seed_row_repeats (runs : list (string * Z)) :
  NoDup (map fst runs) ->
  run_seed [] runs = map (fun run => seed_row (fst run) (snd run)) runs.
Proof.
  intros Hnd. exact (run_seed_from [] runs Hnd).
Qed.

Lemma seed_row_repeats_witness :
  run_seed [] [("u1", 1); ("u2", 2)] = [seed_row "u1" 1; seed_row "u2" 2].
Proof.
  apply (seed_row_repeats [("u1", 1); ("u2", 2)]).
  repeat (constructor; [cbn; intuition discriminate |]). constructor.
Defined.

(** * Properties of the text substitutions *)

Import Cleanup.

Lemma first_gt_none (s : text) :
  first_gt s = None <-> existsb (fun x => (x =? GT)%N) s = false.
Proof.
  induction s as [| c s IH]; cbn; [tauto |].
  destruct (c =? GT)%N; cbn.
  - split; discriminate.
  - destruct (first_gt s) as [k |].
    + split; [discriminate |]. intros H. apply IH in H. discriminate H.
    + split; [| reflexivity]. intros _. apply IH. reflexivity.
Qed.

Lemma match_tag_none (c : N) (rest : text) :
  (c =? LT)%N && existsb (fun x => (x =? GT)%N) rest = false ->
  match_tag (c :: rest) = None.
Proof.
  cbn. destruct (c =? LT)%N; cbn; [| reflexivity].
  intros H. apply first_gt_none in H. rewrite H. reflexivity.
Qed.

Lemma match_tag_some (c : N) (rest : text) (n : nat) :
  match_tag (c :: rest) = Some n ->
  (c =? LT)%N && existsb (fun x => (x =? GT)%N) rest = true
  /\ exists k, n = S k.
Proof.
  cbn. destruct (c =? LT)%N; cbn; [| discriminate].
  destruct (first_gt rest) as [k |] eqn:Hk; [| discriminate].
  intros H. inversion H. split; [| eexists; reflexivity].
  destruct (existsb (fun x => (x =? GT)%N) rest) eqn:He; [reflexivity |].
  apply first_gt_none in He. congruence.
Qed.

(** What a substitution by the empty string leaves was in the text. *)
Lemma sub_from_erases (matcher : text -> option nat) (f : N -> bool)
    (s : text) :
  forall k,
    existsb f (sub_from matcher [] k s) = true -> existsb f s = true.
Proof.
  induction s as [| c s IH]; intros k; cbn; [auto |].
  destruct k as [| k].
  - destruct (matcher (c :: s)) as [[| n] |]; cbn.
    + intros H. apply orb_prop in H. destruct H as [H | H];
        [rewrite H; reflexivity |].
      rewrite (IH _ H). apply orb_true_r.
    + intros H. rewrite (IH _ H). apply orb_true_r.
    + intros H. apply orb_prop in H. destruct H as [H | H];
        [rewrite H; reflexivity |].
      rewrite (IH _ H). apply orb_true_r.
  - intros H. rewrite (IH _ H). apply orb_true_r.
Qed.

Lemma sub_from_tag_free (s : text) :
  forall k, tag_free (sub_from match_tag [] k s) = true.
Proof.
  induction s as [| c s IH]; intros k; [reflexivity |].
  cbn [sub_from]. destruct k as [| k]; [| apply IH].
  destruct (match_tag (c :: s)) as [n |] eqn:Hm.
  - destruct (match_tag_some c s n Hm) as (_ & k & ->). cbn. apply IH.
  - cbn [tag_free]. rewrite IH, andb_true_r.
    destruct ((c =? LT)%N
              && existsb (fun x => (x =? GT)%N)
                   (sub_from match_tag [] 0 s)) eqn:Hc; [| reflexivity].
    exfalso. apply andb_prop in Hc. destruct Hc as [Hlt Hgt].
    apply sub_from_erases in Hgt.
    cbn in Hm. rewrite Hlt in Hm.
    destruct (first_gt s) eqn:Hf; [discriminate Hm |].
    apply first_gt_none in Hf. congruence.
Qed.

(** On a text without tags neither pattern matches anywhere. *)
Lemma match_br_needs_tag (s : text) (n : nat) :
  match_br s = Some n ->
  exists c rest,
    s = c :: rest
    /\ (c =? LT)%N && existsb (fun x => (x =? GT)%N) rest = true.
Proof.
  destruct s as [| c1 [| c2 [| c3 rest]]]; cbn; try discriminate.
  destruct (c1 =? LT)%N eqn:H1; cbn; [| discriminate].
  destruct ((c2 =? LETTER_b)%N && (c3 =? LETTER_r)%N); [| discriminate].
  intros H. exists c1, (c2 :: c3 :: rest). split; [reflexivity |].
  rewrite H1.
  assert (Hs : existsb (fun x => (x =? GT)%N)
                 (skipn (leading_spaces rest) rest) = true).
  { destruct (skipn (leading_spaces rest) rest) as [| d1 [| d2 tl]];
      [discriminate H | |]; cbn.
    - destruct (d1 =? GT)%N; [reflexivity | discriminate H].
    - destruct (d1 =? GT)%N; [reflexivity |]. cbn.
      destruct ((d1 =? SLASH)%N && (d2 =? GT)%N) eqn:Hd;
        [| discriminate H].
      apply andb_prop in Hd. destruct Hd as [_ Hd]. rewrite Hd.
      reflexivity. }
  apply existsb_exists in Hs. destruct Hs as (x & Hin & Hx).
  cbn. apply orb_true_iff. right. apply orb_true_iff. right.
  apply existsb_exists. exists x. split; [| exact Hx].
  rewrite <- (firstn_skipn (leading_spaces rest) rest).
  apply in_or_app. right. exact Hin.
Qed.

Lemma sub_tag_free_unchanged (matcher : text -> option nat) (repl : text)
    (s : text) :
  (forall c rest n,
      matcher (c :: rest) = Some n ->
      (c =? LT)%N && existsb (fun x => (x =? GT)%N) rest = true) ->
  tag_free s = true ->
  sub_from matcher repl 0 s = s.
Proof.
  intros Hm. induction s as [| c s IH]; intros Hf; [reflexivity |].
  cbn in Hf. apply andb_prop in Hf. destruct Hf as [Hc Hs].
  cbn [sub_from].
  destruct (matcher (c :: s)) as [n |] eqn:Hn.
  - apply Hm in Hn. rewrite Hn in Hc. discriminate Hc.
  - rewrite (IH Hs). reflexivity.
Qed.

Lemma match_tag_needs_tag (c : N) (rest : text) (n : nat) :
  match_tag (c :: rest) = Some n ->
  (c =? LT)%N && existsb (fun x => (x =? GT)%N) rest = true.
Proof.
  intros H. apply (match_tag_some c rest n H).
Qed.

Lemma match_br_needs_tag_cons (c : N) (rest : text) (n : nat) :
  match_br (c :: rest) = Some n ->
  (c =? LT)%N && existsb (fun x => (x =? GT)%N) rest = true.
Proof.
  intros H. destruct (match_br_needs_tag _ _ H) as (c' & rest' & Heq & Ht).
  inversion Heq; subst. exact Ht.
Qed.

Lemma sub_from_length (matcher : text -> option nat) (repl : text)
    (s : text) :
  (List.length repl <= 1)%nat ->
  forall k, (List.length (sub_from matcher repl k s) <= List.length s)%nat.
Proof.
  intros Hr. induction s as [| c s IH]; intros k; cbn; [lia |].
  destruct k as [| k].
  - destruct (matcher (c :: s)) as [[| n] |]; cbn.
    + specialize (IH O). lia.
    + rewrite length_app. specialize (IH n). lia.
    + specialize (IH O). lia.
  - specialize (IH k). lia.
Qed.

(** X15: stripping tags leaves no [<] with a [>] after it, and stripping
    a second time changes nothing. *)
Theorem strip_tags_leaves_no_tag (s : text) :
  tag_free (strip_tags s) = true
  /\ strip_tags (strip_tags s) = strip_tags s.
Proof.
  assert (Hf : tag_free (strip_tags s) = true).
  { apply sub_from_tag_free. }
  split; [exact Hf |].
  apply sub_tag_free_unchanged; [exact match_tag_needs_tag | exact Hf].
Qed.

(** X16: once tags are stripped, the line-break substitution finds nothing
    to replace: applied in that order, every [<br>] is lost instead of
    becoming a newline. *)
Theorem breaks_lost_after_stripping (s : text) :
  br_to_newline (strip_tags s) = strip_tags s.
Proof.
  apply sub_tag_free_unchanged; [exact match_br_needs_tag_cons |].
  apply sub_from_tag_free.
Qed.

(** X17: neither substitution ever lengthens a text, and a text without
    tags comes out of both unchanged. *)
Theorem substitutions_are_conservative (s : text) :
  (List.length (strip_tags s) <= List.length s)%nat
  /\ (List.length (br_to_newline s) <= List.length s)%nat
  /\ (tag_free s = true -> strip_tags s = s /\ br_to_newline s = s).
Proof.
  split; [| split].
  - apply sub_from_length. cbn. lia.
  - apply sub_from_length. cbn. lia.
  - intros Hf. split.
    + apply sub_tag_free_unchanged; [exact match_tag_needs_tag | exact Hf].
    + apply sub_tag_free_unchanged;
        [exact match_br_needs_tag_cons | exact Hf].
Qed.

Lemma substitutions_are_conservative_witness :
  strip_tags sample_plain = sample_plain
  /\ br_to_newline sample_plain = sample_plain.
Proof.
  destruct (substitutions_are_conservative sample_plain) as (_ & _ & Hid).
  apply Hid. reflexivity.
Defined.

(** * Further properties of the handler *)

(** X18: when the upstream call is fulfilled with a body other than [null],
    the handler answers 200 with the body as received under [api_response],
    the upstream status under [proxy_info.status_code] and the parameters
    it sent under [proxy_info.parametros_enviados]. *)
Theorem fulfilled_body_is_wrapped (E : env) (req : request) (url : string)
    (cfg : axios_config) (r : http_response) :
  In (url, cfg) (upstream_calls (events E req)) ->
  upstream E url cfg = Fulfilled r ->
  data r <> VNull ->
  data r <> VUndefined ->
  exists body,
    responses (events E req) = [(200, body)]
    /\ prop body "success" = VBool true
    /\ prop body "api_response" = data r
    /\ prop (prop body "proxy_info") "status_code" = VNum (status r)
    /\ prop (prop body "proxy_info") "parametros_enviados" = params cfg.
Proof.
  exact (success_envelope E req url cfg r).
Qed.

Lemma fulfilled_body_is_wrapped_witness :
  exists body,
    responses (events (answering (Fulfilled two_notices)) dated_request)
      = [(200, body)]
    /\ prop body "success" = VBool true
    /\ prop body "api_response" = data two_notices
    /\ prop (prop body "proxy_info") "status_code" = VNum 200
    /\ prop (prop body "proxy_info") "parametros_enviados"
       = params (axios_options dated_request).
Proof.
  apply (fulfilled_body_is_wrapped (answering (Fulfilled two_notices))
           dated_request apiUrl (axios_options dated_request) two_notices).
  - left. reflexivity.
  - reflexivity.
  - discriminate.
  - discriminate.
Defined.

(** X19: when upstream answers with a JSON object, [stats.total_intimacoes]
    is the object's [count] if that is truthy and 0 otherwise, and
    [stats.total_items] is the number of elements when [items] is an array
    and 0 when [items] is missing or falsy. *)
Theorem stats_report_counts (E : env) (req : request) (url : string)
    (cfg : axios_config) (r : http_response)
    (fields : list (string * value)) :
  In (url, cfg) (upstream_calls (events E req)) ->
  upstream E url cfg = Fulfilled r ->
  data r = VObj fields ->
  exists body,
    responses (events E req) = [(200, body)]
    /\ (truthy (get fields "count") = true ->
        prop (prop body "stats") "total_intimacoes" = get fields "count")
    /\ (truthy (get fields "count") = false ->
        prop (prop body "stats") "total_intimacoes" = VNum 0)
    /\ (forall xs,
           get fields "items" = VArr xs ->
           prop (prop body "stats") "total_items"
             = VNum (Z.of_nat (List.length xs)))
    /\ (truthy (get fields "items") = false ->
        prop (prop body "stats") "total_items" = VNum 0).
Proof.
  intros Hin Hu Hd.
  destruct (call_inversion E req url cfg Hin) as (Hm & -> & ->).
  assert (Hn : data r <> VNull) by (rewrite Hd; discriminate).
  assert (Hv : data r <> VUndefined) by (rewrite Hd; discriminate).
  destruct (path_fulfilled E req r Hm Hu Hn Hv) as (_ & _ & Hr).
  eexists. split; [exact Hr |].
  rewrite Hd. cbn. unfold or_else.
  repeat split.
  - intros Ht. rewrite Ht. reflexivity.
  - intros Ht. rewrite Ht. reflexivity.
  - intros xs Hx. rewrite Hx. reflexivity.
  - intros Ht. rewrite Ht. reflexivity.
Qed.

Lemma stats_report_counts_witness :
  exists body,
    responses (events (answering (Fulfilled two_notices)) dated_request)
      = [(200, body)]
    /\ prop (prop body "stats") "total_intimacoes" = VNum 2
    /\ prop (prop body "stats") "total_items" = VNum 2.
Proof.
  destruct (stats_report_counts (answering (Fulfilled two_notices))
              dated_request apiUrl (axios_options dated_request)
              two_notices
              [("count", VNum 2);
               ("items", VArr [VObj [("id", VNum 1)];
                               VObj [("id", VNum 2)]])])
    as (body & Hr & Hc & _ & Hi & _).
  - left. reflexivity.
  - reflexivity.
  - reflexivity.
  - exists body. split; [exact Hr |]. split.
    + apply Hc. reflexivity.
    + apply (Hi [VObj [("id", VNum 1)]; VObj [("id", VNum 2)]]).
      reflexivity.
Defined.

(** X20: nothing in a request can redirect the upstream call or change its
    headers: every call goes to the one fixed URL with the same [Accept],
    [User-Agent] and [Accept-Language] headers. *)
Theorem upstream_request_is_fixed (E : env) (req : request)
    (url : string) (cfg : axios_config) :
  In (url, cfg) (upstream_calls (events E req)) ->
  url = "https://comunicaapi.pje.jus.br/api/v1/comunicacao"
  /\ req_headers cfg =
       [("Accept", "application/json");
        ("User-Agent", "ADVBOX-Render-Proxy/1.0");
        ("Accept-Language", "pt-BR,pt;q=0.9,en;q=0.8")].
Proof.
  intros Hin.
  destruct (call_inversion E req url cfg Hin) as (_ & -> & ->).
  split; reflexivity.
Qed.

Lemma upstream_request_is_fixed_witness :
  apiUrl = "https://comunicaapi.pje.jus.br/api/v1/comunicacao"
  /\ req_headers (axios_options dated_request) =
       [("Accept", "application/json");
        ("User-Agent", "ADVBOX-Render-Proxy/1.0");
        ("Accept-Language", "pt-BR,pt;q=0.9,en;q=0.8")].
Proof.
  apply (upstream_request_is_fixed (answering (Rejected timed_out))
           dated_request apiUrl (axios_options dated_request)).
  left. reflexivity.
Defined.

(** X21: the one response says [success: true] exactly when both dates were
    given, the upstream call was fulfilled and its body is not [null]; its
    status is then 200.  In every other case it says [success: false]. *)
Theorem success_flag_characterised (E : env) (req : request) :
  exists code body,
    responses (events E req) = [(code, body)]
    /\ (prop body "success" = VBool true <->
        missing_required req = false
        /\ exists r,
             upstream E apiUrl (axios_options req) = Fulfilled r
             /\ data r <> VNull /\ data r <> VUndefined)
    /\ (prop body "success" = VBool true -> code = 200)
    /\ (prop body "success" <> VBool true ->
        prop body "success" = VBool false).
Proof.
  destruct (missing_required req) eqn:Hm.
  - destruct (path_bad_request E req Hm) as (_ & _ & Hr).
    do 2 eexists. split; [exact Hr |]. cbn.
    split; [split; [discriminate | intros [H _]; discriminate H] |].
    split; [discriminate | reflexivity].
  - destruct (upstream E apiUrl (axios_options req)) as [r | e] eqn:Hu.
    + destruct (member (data r) "count") as [e | c] eqn:Hc.
      * destruct (path_thrown E req r e Hm Hu Hc) as (_ & _ & Hr).
        do 2 eexists. split; [exact Hr |]. cbn.
        split; [split; [discriminate |] |].
        -- intros (_ & r' & Hr' & Hn & Hv). exfalso.
           inversion Hr'; subst r'.
           destruct (data r); try discriminate Hc; congruence.
        -- split; [discriminate | reflexivity].
      * assert (Hn : data r <> VNull)
          by (intros Hd; rewrite Hd in Hc; discriminate Hc).
        assert (Hv : data r <> VUndefined)
          by (intros Hd; rewrite Hd in Hc; discriminate Hc).
        destruct (path_fulfilled E req r Hm Hu Hn Hv) as (_ & _ & Hr).
        do 2 eexists. split; [exact Hr |]. cbn.
        split; [split; [| reflexivity] |].
        -- intros _. split; [reflexivity |]. exists r. auto.
        -- split; [reflexivity | congruence].
    + destruct (path_rejected E req e Hm Hu) as (_ & _ & Hr).
      do 2 eexists. split; [exact Hr |]. cbn.
      split; [split; [discriminate |] |].
      * intros (_ & r' & Hr' & _). discriminate Hr'.
      * split; [discriminate | reflexivity].
Qed.
